(** * The review server (server.py): a shallow embedding and its properties

    [ReviewAnalyzerServer.__call__] is a WSGI application over an in-memory
    list of reviews.  A GET filters the list by location and date range,
    attaches a sentiment score to every surviving review and answers with
    the records sorted by compound score; a POST validates a form and
    appends a new review.

    The handler is embedded as a function from the request environment, the
    current list of reviews and the two values read from the outside world
    (random bytes, the clock) to the response and the new list of reviews.
    Exceptions are results of the embedding, and the calls made to
    [pd.to_datetime] and to the sentiment scorer are recorded in a trace, so
    that "is never parsed" and "is never scored" are statements about the
    code.  The libraries the handler calls ([parse_qs], [pd.to_datetime],
    VADER, [int], [bytes.decode], the string and float encoders of [json])
    are variables of the section.

    What [pd.to_datetime] returns is [NaT] or a Timestamp with or without
    a time zone.  [>=] and [<=] are false on [NaT] and raise [TypeError]
    between a Timestamp with a time zone and one without, an exception
    that the [except ValueError] of the handler does not catch. *)

From Stdlib Require Import ZArith QArith Lia ZifyNat Sorted Permutation Ascii
  DecimalString.
From stdpp Require Import gmap strings list.

Close Scope Q_scope.
Local Open Scope string_scope.
Local Open Scope Z_scope.
Local Open Scope list_scope.

(** ** Python values used by the handler *)

Definition bytes := list Byte.byte.

(** A [str] is represented by its UTF-8 bytes, so [s.encode("utf-8")] reads
    the bytes off. *)
Definition utf8_encode (s : string) : bytes := String.list_byte_of_string s.

(** The exceptions that can leave the handler. *)
Inductive exn := ValueError | TypeError | IndexError | UnicodeDecodeError.

#[global] Instance exn_eq_dec : EqDecision exn.
Proof. solve_decision. Defined.

(** Calls to the two external capabilities whose use the specification
    talks about. *)
Inductive event :=
  | ev_to_datetime (arg : string)
  | ev_polarity_scores (text : string).

(** A computation yields the trace of external calls it made and either an
    exception or a value. *)
Definition M (A : Type) : Type := (list event * (exn + A))%type.

Definition ret {A} (a : A) : M A := ([], inr a).
Definition raise {A} (e : exn) : M A := ([], inl e).
Definition bind {A B} (m : M A) (k : A → M B) : M B :=
  match m with
  | (t, inl e) => (t, inl e)
  | (t, inr a) => let '(t', r) := k a in (t ++ t', r)
  end.

Notation "'let*' x ':=' m 'in' k" := (bind m (fun x => k))
  (at level 10, x name, m at level 100, k at level 200,
   format "'[v' 'let*'  x  ':='  m  'in'  '/' k ']'").

(** [try: body / except ValueError: handler], followed by the statements
    [k] that come after the [try] statement (they are not guarded). *)
Definition try_except_ValueError {A B}
    (body : M A) (handler : M B) (k : A → M B) : M B :=
  match body with
  | (t, inr a) => let '(t', r) := k a in (t ++ t', r)
  | (t, inl ValueError) => let '(t', r) := handler in (t ++ t', r)
  | (t, inl e) => (t, inl e)
  end.

(** Truth value of a query value, which is [None] or a [str]. *)
Definition truthy (v : option string) : bool :=
  match v with
  | None => false
  | Some s => negb (String.eqb s "")
  end.

(** [review['Location'] == location], the right-hand side [None] or a
    [str]. *)
Definition str_eq_val (s : string) (v : option string) : bool :=
  match v with
  | None => false
  | Some s' => String.eqb s s'
  end.

(** [location not in VALID_LOCATIONS] is the negation of this. *)
Definition val_in (v : option string) (l : list string) : bool :=
  match v with
  | None => false
  | Some s => existsb (String.eqb s) l
  end.

(** [params.get(key, [None])[0]] on the dictionary [parse_qs] returns. *)
Definition first_value (params : gmap string (list string)) (key : string)
    : M (option string) :=
  match params !! key with
  | None => ret None
  | Some (v :: _) => ret (Some v)
  | Some [] => raise IndexError
  end.

(** What [parse_qs] promises about the dictionary it returns: a name is
    only entered with a value, and blank values are dropped. *)
Definition blank_free (params : gmap string (list string)) : Prop :=
  ∀ key values, params !! key = Some values →
                values ≠ [] ∧ Forall (fun v => v ≠ "") values.

(** [str(n)] for a length. *)
Definition str_of_nat (n : nat) : string :=
  NilZero.string_of_uint (Nat.to_uint n).

(** ** list.sort(key=..., reverse=True)

    Python's sort compares keys with [<] only and is stable.  With
    [reverse=True] it reverses the list, sorts it in ascending order and
    reverses the result, which keeps equal keys in their original order.
    The ascending sort is an insertion sort, as the interpreter uses on
    short runs. *)
Section ListSort.
Context {A : Type} (key : A → Q).

Definition key_lt (a b : A) : bool := negb (Qle_bool (key b) (key a)).

Fixpoint insert_sorted (x : A) (l : list A) : list A :=
  match l with
  | [] => [x]
  | y :: l' => if key_lt y x then y :: insert_sorted x l' else x :: y :: l'
  end.

Fixpoint sort_ascending (l : list A) : list A :=
  match l with
  | [] => []
  | x :: l' => insert_sorted x (sort_ascending l')
  end.

Definition list_sort (reverse : bool) (l : list A) : list A :=
  if reverse then rev (sort_ascending (rev l)) else sort_ascending l.
(** Ascending and descending order of the keys. *)
Definition key_le (a b : A) : Prop := (key a <= key b)%Q.
Definition key_ge (a b : A) : Prop := (key b <= key a)%Q.

(** The items whose key equals [c]. *)
Definition with_key (c : Q) (l : list A) : list A :=
  List.filter (fun x => Qeq_bool (key x) c) l.
End ListSort.

(** ** Data model *)

(** A stored review: the four columns of the CSV file, or the four keys of
    the dictionary a POST builds.  The values are strings. *)
Record Review := mkReview {
  ReviewId : string;
  ReviewBody : string;
  Location : string;
  Timestamp : string
}.

(** The dictionary [sia.polarity_scores] returns.  Its floats are finite,
    and are represented by the rationals they denote. *)
Record Sentiment := mkSentiment {
  neg : Q;
  neu : Q;
  pos : Q;
  compound : Q
}.

(** A response record of the GET handler. *)
Record ReviewData := mkReviewData {
  rd_ReviewId : string;
  rd_ReviewBody : string;
  rd_Location : string;
  rd_Timestamp : string;
  rd_sentiment : Sentiment
}.

(** The WSGI environment, with the keys the handler reads.  [wsgi_input]
    holds the bytes of the request body. *)
Record Environ := mkEnviron {
  REQUEST_METHOD : string;
  QUERY_STRING : option string;
  CONTENT_LENGTH : option string;
  wsgi_input : bytes
}.

(** What the handler passes to [start_response], and the list it returns. *)
Record Response := mkResponse {
  status : string;
  headers : list (string * string);
  body : list bytes
}.

(** [datetime.now()]. *)
Record datetime := mkDatetime {
  year : nat;
  month : nat;
  day : nat;
  hour : nat;
  minute : nat;
  second : nat;
  microsecond : nat
}.

(** What a POST reads from outside the program: the integer of the sixteen
    bytes [os.urandom(16)] returns (big-endian), and the clock. *)
Record World := mkWorld {
  urandom16 : Z;
  now : datetime
}.

Definition VALID_LOCATIONS : list string := [
  "Albuquerque, New Mexico"; "Carlsbad, California"; "Chula Vista, California";
  "Colorado Springs, Colorado"; "Denver, Colorado"; "El Cajon, California";
  "El Paso, Texas"; "Escondido, California"; "Fresno, California";
  "La Mesa, California"; "Las Vegas, Nevada"; "Los Angeles, California";
  "Oceanside, California"; "Phoenix, Arizona"; "Sacramento, California";
  "Salt Lake City, Utah"; "San Diego, California"; "Tucson, Arizona"
].

(** ** uuid.uuid4 and str(UUID) *)

(** [UUID(bytes=os.urandom(16), version=4)]: the variant and version bits
    are overwritten in the integer read from the random bytes. *)
Definition uuid4 (random : Z) : Z :=
  let int := random in
  let int := Z.land int (Z.lnot (Z.shiftl 0xc000 48)) in
  let int := Z.lor int (Z.shiftl 0x8000 48) in
  let int := Z.land int (Z.lnot (Z.shiftl 0xf000 64)) in
  let int := Z.lor int (Z.shiftl 4 76) in
  int.

Definition hex_char (d : Z) : ascii :=
  match d with
  | 0 => "0" | 1 => "1" | 2 => "2" | 3 => "3" | 4 => "4" | 5 => "5"
  | 6 => "6" | 7 => "7" | 8 => "8" | 9 => "9" | 10 => "a" | 11 => "b"
  | 12 => "c" | 13 => "d" | 14 => "e" | _ => "f"
  end%char.

(** The [n] lowest hexadecimal digits of [x], most significant first:
    ['%032x' % x] for [n = 32] and [0 <= x < 2^128]. *)
Fixpoint hex_digits (n : nat) (x : Z) : string :=
  match n with
  | O => ""
  | S n' => hex_digits n' (Z.shiftr x 4) +:+ String (hex_char (Z.land x 15)) ""
  end.

(** [s[i:j]]. *)
Definition slice (i j : nat) (s : string) : string :=
  String.substring i (j - i) s.

(** [str(u)] for a UUID of integer [int]. *)
Definition uuid_str (int : Z) : string :=
  let hex := hex_digits 32 int in
  slice 0 8 hex +:+ "-" +:+ slice 8 12 hex +:+ "-" +:+ slice 12 16 hex
    +:+ "-" +:+ slice 16 20 hex +:+ "-" +:+ slice 20 32 hex.

Definition is_digit (c : ascii) : bool :=
  let n := nat_of_ascii c in ((48 <=? n) && (n <=? 57))%nat.

Definition is_hex (c : ascii) : bool :=
  let n := nat_of_ascii c in is_digit c || ((97 <=? n) && (n <=? 102))%nat.

(** The shape of a UUID: 36 characters, hyphens after the 8th, 12th, 16th
    and 20th hexadecimal digit. *)
Definition uuid_format (s : string) : bool :=
  (String.length s =? 36)%nat
  && forallb
       (fun i =>
          match String.get i s with
          | Some c =>
              if existsb (Nat.eqb i) [8; 13; 18; 23]%nat
              then Ascii.eqb c "-" else is_hex c
          | None => false
          end)
       (seq 0 36).

(** ** datetime.strftime("%Y-%m-%d %H:%M:%S") *)

Definition digit_char (d : nat) : ascii :=
  match d with
  | 0 => "0" | 1 => "1" | 2 => "2" | 3 => "3" | 4 => "4"
  | 5 => "5" | 6 => "6" | 7 => "7" | 8 => "8" | _ => "9"
  end%nat%char.

(** [%m], [%d], [%H], [%M] and [%S]: two digits, zero-padded. *)
Definition two_digits (n : nat) : string :=
  String (digit_char (n / 10 mod 10)%nat) (String (digit_char (n mod 10)%nat) "").

(** [%Y]: the four digits of a year between 1000 and 9999. *)
Definition four_digits (n : nat) : string :=
  two_digits (n / 100)%nat +:+ two_digits n.

(** The microsecond field is not printed. *)
Definition strftime (t : datetime) : string :=
  four_digits (year t) +:+ "-" +:+ two_digits (month t) +:+ "-"
    +:+ two_digits (day t) +:+ " " +:+ two_digits (hour t) +:+ ":"
    +:+ two_digits (minute t) +:+ ":" +:+ two_digits (second t).

(** The shape [dddd-dd-dd dd:dd:dd]. *)
Definition timestamp_format (s : string) : bool :=
  match String.list_ascii_of_string s with
  | [y1; y2; y3; y4; s1; m1; m2; s2; d1; d2; s3; h1; h2; s4; n1; n2; s5; c1; c2] =>
      forallb is_digit [y1; y2; y3; y4; m1; m2; d1; d2; h1; h2; n1; n2; c1; c2]
      && Ascii.eqb s1 "-" && Ascii.eqb s2 "-" && Ascii.eqb s3 " "
      && Ascii.eqb s4 ":" && Ascii.eqb s5 ":"
  | _ => false
  end.

(** ** json.dumps(..., indent=2)

    With an indent the item separator is a comma and the key separator a
    colon and a space; every item starts on a line of its own, indented by
    two spaces per nesting level, and an empty list is printed [[]]. *)

Definition newline_indent (level : nat) : string :=
  String "010" (String.concat "" (replicate (2 * level) " ")).

Definition json_array (level : nat) (items : list string) : string :=
  match items with
  | [] => "[]"
  | _ => "[" +:+ newline_indent (S level)
          +:+ String.concat ("," +:+ newline_indent (S level)) items
          +:+ newline_indent level +:+ "]"
  end.

(** [members] are the encoded keys with their encoded values. *)
Definition json_object (level : nat) (members : list (string * string))
    : string :=
  match members with
  | [] => "{}"
  | _ => "{" +:+ newline_indent (S level)
          +:+ String.concat ("," +:+ newline_indent (S level))
                (map (fun kv => fst kv +:+ ": " +:+ snd kv) members)
          +:+ newline_indent level +:+ "}"
  end.

(** The byte literals of the error responses: [b'{"error": "..."}']. *)
Definition quoted (s : string) : string := String "034" (s +:+ String "034" "").

Definition error_body (message : string) : bytes :=
  utf8_encode ("{" +:+ quoted "error" +:+ ": " +:+ quoted message +:+ "}").

(** ** The handler *)

(** What [pd.to_datetime] returns for a string it accepts: [NaT], or a
    Timestamp without or with a time zone, given by its position on the
    time line (for an aware one, the instant). *)
Inductive pd_datetime :=
  | NaT
  | Naive (t : Z)
  | Aware (t : Z).

(** [a >= b] and [a <= b] on such values.  [NaT] compares false with
    everything; a naive and an aware Timestamp cannot be compared, and
    [None] stands for the [TypeError] that comparison raises. *)
Definition pd_ge (a b : pd_datetime) : option bool :=
  match a, b with
  | NaT, _ | _, NaT => Some false
  | Naive x, Naive y | Aware x, Aware y => Some (y <=? x)
  | _, _ => None
  end.

Definition pd_le (a b : pd_datetime) : option bool :=
  match a, b with
  | NaT, _ | _, NaT => Some false
  | Naive x, Naive y | Aware x, Aware y => Some (x <=? y)
  | _, _ => None
  end.

(** The value of [start_date] and of [end_date] along lines 59 to 70:
    [None], the string of the query, or the date-time [pd.to_datetime]
    made of it. *)
Inductive date_val :=
  | DateNone
  | DateStr (s : string)
  | DateTime (t : pd_datetime).

(** How a call of the application ends. *)
Inductive outcome :=
  | Responded (r : Response)
  | Raised (e : exn)
  | ReturnedNone.

(** [[x for x in l if cond(x)]]: the condition is evaluated on the items
    in order, and an exception ends the comprehension. *)
Fixpoint comprehension {A} (cond : A → M bool) (l : list A) : M (list A) :=
  match l with
  | [] => ret []
  | x :: l' =>
      let* c := cond x in
      let* rest := comprehension cond l' in
      ret (if c then x :: rest else rest)
  end.

(** [for x in l: results.append(f(x))]. *)
Fixpoint for_append {A B} (f : A → M B) (l : list A) : M (list B) :=
  match l with
  | [] => ret []
  | x :: l' =>
      let* y := f x in
      let* rest := for_append f l' in
      ret (y :: rest)
  end.

Section Server.

(** [urllib.parse.parse_qs]. *)
Variable parse_qs : string → gmap string (list string).
(** [pd.to_datetime] on a string: [None] stands for the [ValueError] it
    raises on a string it cannot parse. *)
Variable to_datetime : string → option pd_datetime.
(** [sia.polarity_scores]. *)
Variable polarity_scores : string → Sentiment.
(** [int] on a string; [None] stands for its [ValueError]. *)
Variable int_of_str : string → option Z.
(** [bytes.decode("utf-8")]; [None] stands for [UnicodeDecodeError]. *)
Variable utf8_decode : bytes → option string.
(** How [json] prints a string (quotes included) and a float. *)
Variable json_string : string → string.
Variable json_float : Q → string.

Definition pd_to_datetime (s : string) : M pd_datetime :=
  ([ev_to_datetime s],
   match to_datetime s with
   | Some t => inr t
   | None => inl ValueError
   end).

Definition analyze_sentiment (review_body : string) : M Sentiment :=
  ([ev_polarity_scores review_body], inr (polarity_scores review_body)).

(** [json.dumps(new_review, indent=2)]. *)
Definition dumps_review (r : Review) : string :=
  json_object 0 [
    (json_string "ReviewId", json_string (ReviewId r));
    (json_string "ReviewBody", json_string (ReviewBody r));
    (json_string "Location", json_string (Location r));
    (json_string "Timestamp", json_string (Timestamp r))
  ].

Definition dumps_sentiment (level : nat) (s : Sentiment) : string :=
  json_object level [
    (json_string "neg", json_float (neg s));
    (json_string "neu", json_float (neu s));
    (json_string "pos", json_float (pos s));
    (json_string "compound", json_float (compound s))
  ].

Definition dumps_review_data (level : nat) (d : ReviewData) : string :=
  json_object level [
    (json_string "ReviewId", json_string (rd_ReviewId d));
    (json_string "ReviewBody", json_string (rd_ReviewBody d));
    (json_string "Location", json_string (rd_Location d));
    (json_string "Timestamp", json_string (rd_Timestamp d));
    (json_string "sentiment", dumps_sentiment (S level) (rd_sentiment d))
  ].

(** [json.dumps(results, indent=2)]. *)
Definition dumps_results (results : list ReviewData) : string :=
  json_array 0 (map (dumps_review_data 1) results).

(** Lines 61 to 64: [if d: d = pd.to_datetime(d)]. *)
Definition parse_if_truthy (d : option string) : M date_val :=
  match d with
  | None => ret DateNone
  | Some s =>
      if truthy (Some s)
      then let* t := pd_to_datetime s in ret (DateTime t)
      else ret (DateStr s)
  end.

(** [t >= d] and [t <= d] for a pandas date-time [t]: a string on the
    right is not comparable, nor is a Timestamp of the other kind. *)
Definition timestamp_ge (t : pd_datetime) (d : date_val) : M bool :=
  match d with
  | DateTime t' =>
      match pd_ge t t' with
      | Some b => ret b
      | None => raise TypeError
      end
  | _ => raise TypeError
  end.

Definition timestamp_le (t : pd_datetime) (d : date_val) : M bool :=
  match d with
  | DateTime t' =>
      match pd_le t t' with
      | Some b => ret b
      | None => raise TypeError
      end
  | _ => raise TypeError
  end.

(** The condition of lines 68 and 69, with the short circuits of [or]
    and [and]. *)
Definition in_date_range (start_date end_date : date_val) (review : Review)
    : M bool :=
  let* after_start :=
    match start_date with
    | DateNone => ret true
    | _ => let* t := pd_to_datetime (Timestamp review) in
           timestamp_ge t start_date
    end in
  if after_start then
    match end_date with
    | DateNone => ret true
    | _ => let* t := pd_to_datetime (Timestamp review) in
           timestamp_le t end_date
    end
  else ret false.

(** Lines 55 and 56. *)
Definition filter_location (location : option string)
    (reviews : list Review) : list Review :=
  if truthy location
  then List.filter (fun review => str_eq_val (Location review) location) reviews
  else reviews.

(** The body of the [try] statement, lines 61 to 70. *)
Definition filter_dates (start_date end_date : option string)
    (filtered_reviews : list Review) : M (list Review) :=
  let* start_date := parse_if_truthy start_date in
  let* end_date := parse_if_truthy end_date in
  comprehension (in_date_range start_date end_date) filtered_reviews.

Definition json_headers (response_body : bytes) : list (string * string) :=
  [("Content-Type", "application/json");
   ("Content-Length", str_of_nat (length response_body))].

Definition bad_request (message : string) : Response :=
  {| status := "400 Bad Request";
     headers := [("Content-Type", "application/json")];
     body := [error_body message] |}.

(** Lines 79 to 85. *)
Definition review_data (review : Review) (sentiment : Sentiment)
    : ReviewData :=
  {| rd_ReviewId := ReviewId review;
     rd_ReviewBody := ReviewBody review;
     rd_Location := Location review;
     rd_Timestamp := Timestamp review;
     rd_sentiment := sentiment |}.

Definition compound_key (x : ReviewData) : Q := compound (rd_sentiment x).

(** Lines 76 to 89. *)
Definition sorted_results (filtered_reviews : list Review)
    : M (list ReviewData) :=
  let* results :=
    for_append
      (fun review =>
         let* sentiment := analyze_sentiment (ReviewBody review) in
         ret (review_data review sentiment))
      filtered_reviews in
  ret (list_sort compound_key true results).

(** Lines 76 to 96. *)
Definition respond_results (filtered_reviews : list Review) : M Response :=
  let* results := sorted_results filtered_reviews in
  let response_body := utf8_encode (dumps_results results) in
  ret {| status := "200 OK";
         headers := json_headers response_body;
         body := [response_body] |}.

(** Lines 46 to 51: the three values of the query. *)
Definition query_fields (environ : Environ)
    : M (option string * option string * option string) :=
  let query_string := default "" (QUERY_STRING environ) in
  let params := parse_qs query_string in
  let* location := first_value params "location" in
  let* start_date := first_value params "start_date" in
  let* end_date := first_value params "end_date" in
  ret (location, start_date, end_date).

(** The GET branch, lines 46 to 96. *)
Definition do_GET (environ : Environ) (reviews : list Review) : M Response :=
  let* fields := query_fields environ in
  let location := fst (fst fields) in
  let start_date := snd (fst fields) in
  let end_date := snd fields in
  let filtered_reviews := filter_location location reviews in
  if truthy start_date || truthy end_date then
    try_except_ValueError
      (filter_dates start_date end_date filtered_reviews)
      (ret (bad_request "Invalid date format"))
      respond_results
  else respond_results filtered_reviews.

(** The filter on its own, lines 54 to 70: what [filtered_reviews] holds
    when line 75 is reached, or the exception raised on the way. *)
Definition filter_reviews (location start_date end_date : option string)
    (reviews : list Review) : M (list Review) :=
  let filtered_reviews := filter_location location reviews in
  if truthy start_date || truthy end_date
  then filter_dates start_date end_date filtered_reviews
  else ret filtered_reviews.

(** [stream.read(n)] on a stream holding [data]: a negative [n] reads to
    the end. *)
Definition read (data : bytes) (n : Z) : bytes :=
  if n <? 0 then data else take (Z.to_nat n) data.

(** Line 99: [int(environ.get("CONTENT_LENGTH", 0))]. *)
Definition content_length_of (environ : Environ) : M Z :=
  match CONTENT_LENGTH environ with
  | None => ret 0
  | Some s =>
      match int_of_str s with
      | Some n => ret n
      | None => raise ValueError
      end
  end.

(** Lines 99 to 104: the two fields of the form. *)
Definition post_fields (environ : Environ)
    : M (option string * option string) :=
  let* content_length := content_length_of environ in
  let* post_data :=
    match utf8_decode (read (wsgi_input environ) content_length) with
    | Some s => ret s
    | None => raise UnicodeDecodeError
    end in
  let params := parse_qs post_data in
  let* location := first_value params "Location" in
  let* review_body := first_value params "ReviewBody" in
  ret (location, review_body).

(** The POST branch, lines 99 to 135: the response and the list of
    reviews after the call.  Past the two checks [location] and
    [review_body] are strings, and [default] takes them out of the
    option. *)
Definition do_POST (environ : Environ) (world : World)
    (reviews : list Review) : M (Response * list Review) :=
  let* fields := post_fields environ in
  let location := fst fields in
  let review_body := snd fields in
  if negb (truthy location) || negb (truthy review_body) then
    ret (bad_request "Location and ReviewBody are required", reviews)
  else if negb (val_in location VALID_LOCATIONS) then
    ret (bad_request "Invalid location", reviews)
  else
    let review_id := uuid_str (uuid4 (urandom16 world)) in
    let timestamp := strftime (now world) in
    let new_review :=
      {| ReviewId := review_id;
         ReviewBody := default "" review_body;
         Location := default "" location;
         Timestamp := timestamp |} in
    let reviews := reviews ++ [new_review] in
    let response_body := utf8_encode (dumps_review new_review) in
    ret ({| status := "201 Created";
            headers := json_headers response_body;
            body := [response_body] |}, reviews).

(** [__call__]: the trace of external calls, how the call ends, and
    [self.reviews] afterwards.  A method other than GET and POST falls
    off the end of the function. *)
Definition call (environ : Environ) (world : World) (reviews : list Review)
    : list event * outcome * list Review :=
  if String.eqb (REQUEST_METHOD environ) "GET" then
    match do_GET environ reviews with
    | (t, inr response) => (t, Responded response, reviews)
    | (t, inl e) => (t, Raised e, reviews)
    end
  else if String.eqb (REQUEST_METHOD environ) "POST" then
    match do_POST environ world reviews with
    | (t, inr (response, reviews')) => (t, Responded response, reviews')
    | (t, inl e) => (t, Raised e, reviews)
    end
  else ([], ReturnedNone, reviews).

(** A review with the score the scorer gives its body. *)
Definition scored (review : Review) : ReviewData :=
  review_data review (polarity_scores (ReviewBody review)).

(** The records of a 200 response for the reviews that passed the
    filter, and the response. *)
Definition results_of (filtered_reviews : list Review) : list ReviewData :=
  list_sort compound_key true (map scored filtered_reviews).

Definition ok_response (filtered_reviews : list Review) : Response :=
  let response_body :=
    utf8_encode (dumps_results (results_of filtered_reviews)) in
  {| status := "200 OK";
     headers := json_headers response_body;
     body := [response_body] |}.

Definition scorer_calls (filtered_reviews : list Review) : list event :=
  map (fun review => ev_polarity_scores (ReviewBody review)) filtered_reviews.

(** The order of the response records: no record has a higher compound
    score than the one before it, and the records of any one score come
    in the order they have in [original]. *)
Definition descending (results : list ReviewData) : Prop :=
  ∀ i a b, results !! i = Some a → results !! S i = Some b →
           (compound (rd_sentiment b) <= compound (rd_sentiment a))%Q.

Definition ties_in_order (results original : list ReviewData) : Prop :=
  ∀ c, with_key compound_key c results = with_key compound_key c original.

(** The review a POST creates, and its response. *)
Definition new_review (world : World) (location review_body : string)
    : Review :=
  {| ReviewId := uuid_str (uuid4 (urandom16 world));
     ReviewBody := review_body;
     Location := location;
     Timestamp := strftime (now world) |}.

Definition created_response (review : Review) : Response :=
  let response_body := utf8_encode (dumps_review review) in
  {| status := "201 Created";
     headers := json_headers response_body;
     body := [response_body] |}.

(** *** What the filter is specified to keep

    The words of the contract of the filter: the location equals the
    parameter when it is provided; the Timestamp is not before the start
    when there is one, and not after the end when there is one. *)

Definition location_matches (location : option string) (review : Review)
    : Prop :=
  match location with
  | None => True
  | Some l => Location review = l
  end.

Definition not_before (start_date : option string) (review : Review) : Prop :=
  match start_date with
  | None => True
  | Some s => ∃ t0 t, to_datetime s = Some t0
                      ∧ to_datetime (Timestamp review) = Some t
                      ∧ pd_ge t t0 = Some true
  end.

Definition not_after (end_date : option string) (review : Review) : Prop :=
  match end_date with
  | None => True
  | Some s => ∃ t1 t, to_datetime s = Some t1
                      ∧ to_datetime (Timestamp review) = Some t
                      ∧ pd_le t t1 = Some true
  end.

(** A value [parse_qs] gives is not the empty string: blank values are
    dropped from the dictionary. *)
Definition query_value (v : option string) : Prop := v ≠ Some "".

(** A date parameter that is supplied can be parsed. *)
Definition parses (d : option string) : Prop :=
  ∀ s, d = Some s → is_Some (to_datetime s).

Definition timestamp_parses (review : Review) : Prop :=
  is_Some (to_datetime (Timestamp review)).

(** The bound a date parameter stands for, and the two tests in the
    comprehension as one boolean function of the review. *)
Definition bound (d : option string) : option pd_datetime :=
  match d with
  | None => None
  | Some s => to_datetime s
  end.

Definition date_of_bound (b : option pd_datetime) : date_val :=
  match b with
  | None => DateNone
  | Some t => DateTime t
  end.

Definition within (lower upper : option pd_datetime) (review : Review)
    : bool :=
  match lower with
  | None => true
  | Some t0 =>
      match to_datetime (Timestamp review) with
      | Some t => default false (pd_ge t t0)
      | None => false
      end
  end
  &&
  match upper with
  | None => true
  | Some t1 =>
      match to_datetime (Timestamp review) with
      | Some t => default false (pd_le t t1)
      | None => false
      end
  end.

(** Two Timestamps of which one has a time zone and the other has none:
    the pairs that [>=] and [<=] refuse. *)
Definition mixed (a b : pd_datetime) : bool :=
  match a, b with
  | Naive _, Aware _ | Aware _, Naive _ => true
  | _, _ => false
  end.

(** The Timestamp of the review parses, and can be compared with the
    bound when there is one. *)
Definition comparable (b : option pd_datetime) (review : Review) : Prop :=
  ∃ t, to_datetime (Timestamp review) = Some t
       ∧ ∀ t0, b = Some t0 → mixed t t0 = false.

(** The calls of [pd.to_datetime] on the parameters of the query. *)
Definition parameter_parse (d : option string) : list event :=
  match d with
  | Some s => if String.eqb s "" then [] else [ev_to_datetime s]
  | None => []
  end.

Definition parameter_parses (start_date end_date : option string)
    : list event :=
  parameter_parse start_date ++ parameter_parse end_date.

End Server.

(** ** The server over several requests

    Line 138 makes one application object and line 140 hands it to the
    single-threaded server of [wsgiref], which calls it once per request,
    whatever the call before returned or raised: each call sees the list
    of reviews the call before left. *)
Section Serving.
Variable parse_qs : string → gmap string (list string).
Variable to_datetime : string → option pd_datetime.
Variable polarity_scores : string → Sentiment.
Variable int_of_str : string → option Z.
Variable utf8_decode : bytes → option string.
Variable json_string : string → string.
Variable json_float : Q → string.

Fixpoint serve (requests : list (Environ * World)) (reviews : list Review)
    : list outcome * list Review :=
  match requests with
  | [] => ([], reviews)
  | request :: requests' =>
      let result :=
        call parse_qs to_datetime polarity_scores int_of_str utf8_decode
             json_string json_float (fst request) (snd request) reviews in
      let rest := serve requests' (snd result) in
      (snd (fst result) :: fst rest, snd rest)
  end.

End Serving.

(** A 201 response. *)
Definition is_created (o : outcome) : bool :=
  match o with
  | Responded r => String.eqb (status r) "201 Created"
  | _ => false
  end.

(** What the checks of lines 107 to 117 establish of a review before it is
    appended. *)
Definition submitted (review : Review) : Prop :=
  In (Location review) VALID_LOCATIONS
  ∧ Location review ≠ ""
  ∧ ReviewBody review ≠ ""
  ∧ uuid_format (ReviewId review) = true
  ∧ timestamp_format (Timestamp review) = true.

(** The two kinds of external call. *)
Definition is_parse (e : event) : bool :=
  match e with
  | ev_to_datetime _ => true
  | ev_polarity_scores _ => false
  end.

Definition is_score (e : event) : bool := negb (is_parse e).

(** The 200 response with no record. *)
Definition empty_response : Response :=
  {| status := "200 OK";
     headers := [("Content-Type", "application/json");
                 ("Content-Length", "2")];
     body := [utf8_encode "[]"] |}.

(** ** Reading the responses and the new review

    The error bodies byte for byte, and readers of the two fields a POST
    prints - the Timestamp and the ReviewId - that share nothing with the
    printers above. *)

(** The bytes of a text, in which an apostrophe is written here for each
    double quote of the text. *)
Definition json_text (s : string) : bytes :=
  utf8_encode
    (String.string_of_list_ascii
       (map (fun c => if Ascii.eqb c "'" then "034"%char else c)
            (String.list_ascii_of_string s))).

Definition digit_value (c : ascii) : option nat :=
  let n := nat_of_ascii c in
  if ((48 <=? n) && (n <=? 57))%nat then Some (n - 48)%nat else None.

Definition hex_value (c : ascii) : option Z :=
  let n := Z.of_nat (nat_of_ascii c) in
  if (48 <=? n) && (n <=? 57) then Some (n - 48)
  else if (97 <=? n) && (n <=? 102) then Some (n - 87)
  else None.

(** The number that digits write, the most significant first. *)
Fixpoint decimal (acc : nat) (digits : list ascii) : option nat :=
  match digits with
  | [] => Some acc
  | c :: digits' =>
      match digit_value c with
      | Some d => decimal (10 * acc + d) digits'
      | None => None
      end
  end.

Fixpoint hexadecimal (acc : Z) (digits : list ascii) : option Z :=
  match digits with
  | [] => Some acc
  | c :: digits' =>
      match hex_value c with
      | Some d => hexadecimal (16 * acc + d) digits'
      | None => None
      end
  end.

(** The date and time that a text [YYYY-MM-DD HH:MM:SS] writes. *)
Definition timestamp_fields (s : string) : option datetime :=
  match String.list_ascii_of_string s with
  | [y1; y2; y3; y4; s1; m1; m2; s2; d1; d2; s3; h1; h2; s4; n1; n2; s5;
     c1; c2] =>
      if Ascii.eqb s1 "-" && Ascii.eqb s2 "-" && Ascii.eqb s3 " "
         && Ascii.eqb s4 ":" && Ascii.eqb s5 ":"
      then
        match decimal 0 [y1; y2; y3; y4], decimal 0 [m1; m2],
              decimal 0 [d1; d2], decimal 0 [h1; h2], decimal 0 [n1; n2],
              decimal 0 [c1; c2] with
        | Some y, Some m, Some d, Some h, Some n, Some c =>
            Some (mkDatetime y m d h n c 0)
        | _, _, _, _, _, _ => None
        end
      else None
  | _ => None
  end.

(** The fields of a [datetime] of the years that are written with four
    digits. *)
Definition calendar_time (t : datetime) : bool :=
  (1000 <=? Z.of_nat (year t)) && (Z.of_nat (year t) <=? 9999)
  && (1 <=? month t)%nat && (month t <=? 12)%nat
  && (1 <=? day t)%nat && (day t <=? 31)%nat
  && (hour t <=? 23)%nat && (minute t <=? 59)%nat && (second t <=? 59)%nat.

(** The integer of a UUID written in the form 8-4-4-4-12. *)
Definition uuid_int (s : string) : option Z :=
  if (String.length s =? 36)%nat
     && forallb
          (fun i => match String.get i s with
                    | Some c => Ascii.eqb c "-"
                    | None => false
                    end)
          [8; 13; 18; 23]%nat
  then hexadecimal 0
         (String.list_ascii_of_string
            (slice 0 8 s +:+ slice 9 13 s +:+ slice 14 18 s
               +:+ slice 19 23 s +:+ slice 24 36 s))
  else None.

(** ** The valid locations as the specification lists them

    Section 6 of the specification names the eighteen locations by city
    and state abbreviation, and says that the strings are the full
    [City, State] ones. *)

Definition spec_locations : list (string * string) := [
  ("Albuquerque", "NM"); ("Carlsbad", "CA"); ("Chula Vista", "CA");
  ("Colorado Springs", "CO"); ("Denver", "CO"); ("El Cajon", "CA");
  ("El Paso", "TX"); ("Escondido", "CA"); ("Fresno", "CA");
  ("La Mesa", "CA"); ("Las Vegas", "NV"); ("Los Angeles", "CA");
  ("Oceanside", "CA"); ("Phoenix", "AZ"); ("Sacramento", "CA");
  ("Salt Lake City", "UT"); ("San Diego", "CA"); ("Tucson", "AZ")
].

Definition state_name (abbreviation : string) : string :=
  if String.eqb abbreviation "AZ" then "Arizona"
  else if String.eqb abbreviation "CA" then "California"
  else if String.eqb abbreviation "CO" then "Colorado"
  else if String.eqb abbreviation "NM" then "New Mexico"
  else if String.eqb abbreviation "NV" then "Nevada"
  else if String.eqb abbreviation "TX" then "Texas"
  else if String.eqb abbreviation "UT" then "Utah"
  else abbreviation.

Definition city_state (location : string * string) : string :=
  fst location +:+ ", " +:+ state_name (snd location).

(** ** Instances of the libraries, for the examples

    A query string parser without percent-decoding, a parser for the two
    date formats [YYYY-MM-DD] and [YYYY-MM-DD HH:MM:SS], and a scorer that
    knows a few words. *)
Module Demo.

Fixpoint split_on (sep : ascii) (s : string) : list string :=
  match s with
  | EmptyString => [""]
  | String c s' =>
      if Ascii.eqb c sep then "" :: split_on sep s'
      else match split_on sep s' with
           | [] => [String c ""]
           | w :: ws => String c w :: ws
           end
  end.

(** [name=value] at the first equals sign. *)
Fixpoint name_value (s : string) : option (string * string) :=
  match s with
  | EmptyString => None
  | String c s' =>
      if Ascii.eqb c "=" then Some ("", s')
      else match name_value s' with
           | Some (n, v) => Some (String c n, v)
           | None => None
           end
  end.

Definition add_field (params : gmap string (list string)) (field : string)
    : gmap string (list string) :=
  match name_value field with
  | Some (n, v) =>
      if String.eqb v "" then params
      else <[n := default [] (params !! n) ++ [v]]> params
  | None => params
  end.

Definition parse_qs (q : string) : gmap string (list string) :=
  foldl add_field ∅ (split_on "&" q).

Fixpoint digits_value (acc : Z) (s : string) : option Z :=
  match s with
  | EmptyString => Some acc
  | String c s' =>
      if is_digit c
      then digits_value (10 * acc + Z.of_nat (nat_of_ascii c - 48)) s'
      else None
  end.

Definition number (s : string) : option Z :=
  match s with
  | EmptyString => None
  | _ => digits_value 0 s
  end.

(** The date-time as the number [YYYYMMDDhhmmss], which orders date-times
    as the time line does. *)
Definition local_datetime (s : string) : option Z :=
  let field i n := number (String.substring i n s) in
  let sep i c := String.eqb (String.substring i 1 s) c in
  match field 0%nat 4%nat, field 5%nat 2%nat, field 8%nat 2%nat with
  | Some y, Some m, Some d =>
      if sep 4%nat "-" && sep 7%nat "-" && (1 <=? m) && (m <=? 12)
         && (1 <=? d) && (d <=? 31)
      then
        let date := (y * 100 + m) * 100 + d in
        if (String.length s =? 10)%nat then Some (date * 1000000)
        else
          match field 11%nat 2%nat, field 14%nat 2%nat, field 17%nat 2%nat with
          | Some h, Some mi, Some sec =>
              if (String.length s =? 19)%nat
                 && (sep 10%nat " " || sep 10%nat "T")
                 && sep 13%nat ":" && sep 16%nat ":"
                 && (h <=? 23) && (mi <=? 59) && (sec <=? 59)
              then Some (date * 1000000 + (h * 100 + mi) * 100 + sec)
              else None
          | _, _, _ => None
          end
      else None
  | _, _, _ => None
  end.

(** [NaT] by name, a date-time followed by [Z] as a Timestamp in UTC,
    and a date or date-time as a Timestamp without time zone. *)
Definition to_datetime (s : string) : option pd_datetime :=
  if String.eqb s "NaT" then Some NaT
  else if (String.length s =? 20)%nat && String.eqb (String.substring 19 1 s) "Z"
  then Aware <$> local_datetime (String.substring 0 19 s)
  else Naive <$> local_datetime s.

Definition neutral : Sentiment :=
  {| neg := 0; neu := 1; pos := 0; compound := 0 |}.

Definition polarity_scores (text : string) : Sentiment :=
  if String.eqb text "Great!" then
    {| neg := 0; neu := 0; pos := 1; compound := 6588 # 10000 |}
  else if String.eqb text "Awful" then
    {| neg := 1; neu := 0; pos := 0; compound := - (4588 # 10000) |}
  else neutral.

Definition int_of_str (s : string) : option Z := number s.

Definition utf8_decode (b : bytes) : option string :=
  Some (String.string_of_list_byte b).

Definition json_string (s : string) : string := quoted s.

(** Four decimals. *)
Definition json_float (q : Q) : string :=
  let n := Z.abs (Qnum q * 10000 / Z.pos (Qden q)) in
  (if Qnum q <? 0 then "-" else "")
    +:+ str_of_nat (Z.to_nat (n / 10000)) +:+ "."
    +:+ two_digits (Z.to_nat (n / 100)) +:+ two_digits (Z.to_nat n).

Definition app := call parse_qs to_datetime polarity_scores int_of_str
                       utf8_decode json_string json_float.

Definition query_fields := query_fields parse_qs.
Definition post_fields := post_fields parse_qs int_of_str utf8_decode.
Definition filter_reviews := filter_reviews to_datetime.
Definition scored := scored polarity_scores.
Definition results_of := results_of polarity_scores.
Definition dumps_results := dumps_results json_string json_float.
Definition dumps_review := dumps_review json_string.
Definition ok_response := ok_response polarity_scores json_string json_float.
Definition created_response := created_response json_string.

Definition serve := serve parse_qs to_datetime polarity_scores int_of_str
                           utf8_decode json_string json_float.

Definition GET (query : string) : Environ :=
  {| REQUEST_METHOD := "GET"; QUERY_STRING := Some query;
     CONTENT_LENGTH := None; wsgi_input := [] |}.

Definition POST (form : string) : Environ :=
  {| REQUEST_METHOD := "POST"; QUERY_STRING := None;
     CONTENT_LENGTH := Some (str_of_nat (String.length form));
     wsgi_input := utf8_encode form |}.

Definition world : World :=
  {| urandom16 := 0x0123456789abcdef0123456789abcdef;
     now := {| year := 2024; month := 3; day := 9; hour := 14;
               minute := 5; second := 7; microsecond := 4321 |} |}.

Definition denver_ok : Review :=
  {| ReviewId := "r1"; ReviewBody := "ok";
     Location := "Denver, Colorado"; Timestamp := "2023-01-01 00:00:00" |}.
Definition denver_great : Review :=
  {| ReviewId := "r2"; ReviewBody := "Great!";
     Location := "Denver, Colorado"; Timestamp := "2023-06-15 12:30:00" |}.
Definition tucson_awful : Review :=
  {| ReviewId := "r3"; ReviewBody := "Awful";
     Location := "Tucson, Arizona"; Timestamp := "2022-02-02 08:00:00" |}.
Definition denver_fine : Review :=
  {| ReviewId := "r4"; ReviewBody := "fine";
     Location := "Denver, Colorado"; Timestamp := "2024-01-01 00:00:00" |}.
(** A review whose Timestamp is not a date. *)
Definition denver_undated : Review :=
  {| ReviewId := "r5"; ReviewBody := "ok";
     Location := "Denver, Colorado"; Timestamp := "last week" |}.

Definition store : list Review :=
  [denver_ok; denver_great; tucson_awful; denver_fine].

(** A form sent with a content length of its own. *)
Definition POST_with_length (content_length : option string) (form : string)
    : Environ :=
  {| REQUEST_METHOD := "POST"; QUERY_STRING := None;
     CONTENT_LENGTH := content_length;
     wsgi_input := utf8_encode form |}.

(** A decoder that accepts ASCII only. *)
Definition ascii_decode (b : bytes) : option string :=
  if forallb (fun c => (Byte.to_nat c <? 128)%nat) b
  then Some (String.string_of_list_byte b) else None.

(** A second clock and other random bytes. *)
Definition later : World :=
  {| urandom16 := 0xfedcba9876543210fedcba9876543210;
     now := {| year := 2024; month := 3; day := 9; hour := 14;
               minute := 5; second := 8; microsecond := 17 |} |}.

End Demo.

(** * Properties *)

(** ** The sort *)
Section ListSortFacts.
Context {A : Type} (key : A → Q).

Local Abbreviation key_le := (key_le key).
Local Abbreviation key_ge := (key_ge key).
Local Abbreviation with_key := (with_key key).

Lemma key_lt_spec a b : key_lt key a b = true ↔ (key a < key b)%Q.
Proof.
  unfold key_lt. rewrite negb_true_iff. split.
  - intros H. apply Qnot_le_lt. intros Hle.
    apply Qle_bool_iff in Hle. congruence.
  - intros H. destruct (Qle_bool (key b) (key a)) eqn:E; [|done].
    apply Qle_bool_iff in E. by apply Qlt_not_le in H.
Qed.

Lemma key_lt_false a b : key_lt key a b = false → key_le b a.
Proof.
  unfold key_lt, key_le. rewrite negb_false_iff. apply Qle_bool_iff.
Qed.

Lemma insert_sorted_perm x l : insert_sorted key x l ≡ₚ x :: l.
Proof.
  induction l as [|y l IH]; simpl; [done|].
  destruct (key_lt key y x); [|done].
  rewrite IH. apply Permutation_swap.
Qed.

Lemma sort_ascending_perm l : sort_ascending key l ≡ₚ l.
Proof.
  induction l as [|x l IH]; simpl; [done|].
  by rewrite insert_sorted_perm, IH.
Qed.

Lemma list_sort_perm reverse l : list_sort key reverse l ≡ₚ l.
Proof.
  unfold list_sort. destruct reverse.
  - by rewrite <- Permutation_rev, sort_ascending_perm, <- Permutation_rev.
  - apply sort_ascending_perm.
Qed.

Lemma insert_sorted_sorted x l :
  StronglySorted key_le l → StronglySorted key_le (insert_sorted key x l).
Proof.
  induction 1 as [|y l Hl IH Hy]; simpl.
  - repeat constructor.
  - destruct (key_lt key y x) eqn:E.
    + constructor; [done|].
      rewrite insert_sorted_perm. constructor; [|done].
      apply key_lt_spec in E. by apply Qlt_le_weak.
    + apply key_lt_false in E.
      constructor; [by constructor|].
      constructor; [done|].
      eapply Forall_impl; [exact Hy|].
      intros z Hz. unfold key_le in *. by eapply Qle_trans.
Qed.

Lemma sort_ascending_sorted l : StronglySorted key_le (sort_ascending key l).
Proof.
  induction l; simpl; [constructor|by apply insert_sorted_sorted].
Qed.

Lemma StronglySorted_snoc (R : A → A → Prop) l x :
  StronglySorted R l → Forall (fun y => R y x) l →
  StronglySorted R (l ++ [x]).
Proof.
  induction 1 as [|y l Hl IH Hy]; simpl; intros Hx.
  - repeat constructor.
  - inversion_clear Hx as [|?? Hyx Hlx].
    constructor; [by apply IH|].
    apply Forall_app. split; [done|by constructor].
Qed.

Lemma StronglySorted_reversed l :
  StronglySorted key_le l → StronglySorted key_ge (rev l).
Proof.
  induction 1 as [|y l Hl IH Hy]; simpl; [constructor|].
  apply StronglySorted_snoc; [done|].
  apply Forall_forall. intros z Hz.
  apply list_elem_of_In in Hz. apply <- in_rev in Hz.
  apply list_elem_of_In in Hz.
  rewrite Forall_forall in Hy. by apply Hy.
Qed.

(** With [reverse=True] the keys come in descending order. *)
Lemma list_sort_descending l : StronglySorted key_ge (list_sort key true l).
Proof. apply StronglySorted_reversed, sort_ascending_sorted. Qed.

Lemma StronglySorted_adjacent (R : A → A → Prop) l i a b :
  StronglySorted R l → l !! i = Some a → l !! S i = Some b → R a b.
Proof.
  intros Hl. revert i. induction Hl as [|y l Hl IH Hy]; intros i Ha Hb.
  - done.
  - destruct i as [|i]; simpl in *.
    + injection Ha as ->. rewrite Forall_forall in Hy.
      apply Hy. by eapply list_elem_of_lookup_2.
    + by eapply IH.
Qed.

(** Inserting does not move an item past another one of the same key. *)
Lemma insert_sorted_with_key c x l :
  with_key c (insert_sorted key x l) = with_key c (x :: l).
Proof.
  unfold with_key. induction l as [|y l IH]; [done|].
  cbn [insert_sorted]. destruct (key_lt key y x) eqn:E; [|done].
  cbn [List.filter] in *. rewrite IH.
  destruct (Qeq_bool (key y) c) eqn:Ey, (Qeq_bool (key x) c) eqn:Ex;
    try done.
  apply key_lt_spec in E. apply Qeq_bool_iff in Ey, Ex.
  rewrite Ey, Ex in E. by apply Qlt_irrefl in E.
Qed.

Lemma sort_ascending_with_key c l :
  with_key c (sort_ascending key l) = with_key c l.
Proof.
  induction l as [|x l IH]; [done|].
  cbn [sort_ascending]. rewrite insert_sorted_with_key.
  unfold with_key in *. cbn [List.filter]. by rewrite IH.
Qed.

(** Stability: the items of any one key keep their order, whichever way
    the list is sorted. *)
Lemma list_sort_stable reverse c l :
  with_key c (list_sort key reverse l) = with_key c l.
Proof.
  unfold list_sort. destruct reverse; [|apply sort_ascending_with_key].
  unfold with_key. rewrite List.filter_rev.
  fold (with_key c (sort_ascending key (rev l))).
  rewrite sort_ascending_with_key. unfold with_key.
  by rewrite List.filter_rev, rev_involutive.
Qed.

End ListSortFacts.

(** ** The monad *)

Lemma bind_ret_l {A B} (a : A) (k : A → M B) : bind (ret a) k = k a.
Proof. unfold bind, ret. by destruct (k a). Qed.

Lemma bind_inr {A B} t (a : A) (k : A → M B) :
  bind (t, inr a) k = (t ++ fst (k a), snd (k a)).
Proof. unfold bind. by destruct (k a). Qed.

Lemma bind_inl {A B} t e (k : A → M B) : bind (t, inl e) k = (t, inl e).
Proof. done. Qed.

Lemma try_except_inr {A B} t (a : A) (h : M B) (k : A → M B) :
  try_except_ValueError (t, inr a) h k = (t ++ fst (k a), snd (k a)).
Proof. unfold try_except_ValueError. by destruct (k a). Qed.

Lemma try_except_ValueError_caught {A B} t (h : M B) (k : A → M B) :
  try_except_ValueError (t, inl ValueError) h k = (t ++ fst h, snd h).
Proof. unfold try_except_ValueError. by destruct h. Qed.

Lemma try_except_other {A B} t e (h : M B) (k : A → M B) :
  e ≠ ValueError → try_except_ValueError (t, inl e) h k = (t, inl e).
Proof. by destruct e. Qed.

Lemma bind_inr_inv {A B} (m : M A) (k : A → M B) t b :
  bind m k = (t, inr b) →
  ∃ t1 a t2, m = (t1, inr a) ∧ k a = (t2, inr b) ∧ t = t1 ++ t2.
Proof.
  destruct m as [t1 [e|a]]; simpl; [done|].
  destruct (k a) as [t2 r] eqn:E. intros [= <- ->]. by exists t1, a, t2.
Qed.

(** A comprehension that ends gives a subsequence of the list. *)
Lemma comprehension_sublist {A} (cond : A → M bool) l t l' :
  comprehension cond l = (t, inr l') → l' `sublist_of` l.
Proof.
  revert t l'. induction l as [|x l IH]; intros t l' H.
  - injection H as _ <-. done.
  - cbn [comprehension] in H.
    apply bind_inr_inv in H as (t1 & c & t2 & _ & H & _).
    apply bind_inr_inv in H as (t3 & rest & t4 & Hrest & H & _).
    injection H as _ <-. apply IH in Hrest.
    destruct c; [by apply sublist_skip|by apply sublist_cons].
Qed.

Lemma truthy_Some s : truthy (Some s) = true ↔ s ≠ "".
Proof.
  simpl. rewrite negb_true_iff. split.
  - intros H ->. by rewrite String.eqb_refl in H.
  - intros H. by apply String.eqb_neq.
Qed.

Lemma truthy_true v : truthy v = true → ∃ s, v = Some s ∧ s ≠ "".
Proof.
  destruct v as [s|]; [|done]. intros H. exists s. split; [done|].
  by apply truthy_Some.
Qed.

(** ** The handler *)
Section ServerFacts.
Variable parse_qs : string → gmap string (list string).
Variable to_datetime : string → option pd_datetime.
Variable polarity_scores : string → Sentiment.
Variable int_of_str : string → option Z.
Variable utf8_decode : bytes → option string.
Variable json_string : string → string.
Variable json_float : Q → string.

Local Abbreviation query_fields := (query_fields parse_qs).
Local Abbreviation post_fields := (post_fields parse_qs int_of_str utf8_decode).
Local Abbreviation filter_dates := (filter_dates to_datetime).
Local Abbreviation filter_reviews := (filter_reviews to_datetime).
Local Abbreviation in_date_range := (in_date_range to_datetime).
Local Abbreviation parse_if_truthy := (parse_if_truthy to_datetime).
Local Abbreviation sorted_results := (sorted_results polarity_scores).
Local Abbreviation respond_results :=
  (respond_results polarity_scores json_string json_float).
Local Abbreviation dumps_results := (dumps_results json_string json_float).
Local Abbreviation dumps_review := (dumps_review json_string).
Local Abbreviation do_GET :=
  (do_GET parse_qs to_datetime polarity_scores json_string json_float).
Local Abbreviation do_POST :=
  (do_POST parse_qs int_of_str utf8_decode json_string).
Local Abbreviation scored := (scored polarity_scores).
Local Abbreviation results_of := (results_of polarity_scores).
Local Abbreviation ok_response :=
  (ok_response polarity_scores json_string json_float).
Local Abbreviation not_before := (not_before to_datetime).
Local Abbreviation not_after := (not_after to_datetime).
Local Abbreviation parses := (parses to_datetime).
Local Abbreviation timestamp_parses := (timestamp_parses to_datetime).
Local Abbreviation comparable := (comparable to_datetime).
Local Abbreviation bound := (bound to_datetime).
Local Abbreviation within := (within to_datetime).
Local Abbreviation created_response := (created_response json_string).
Local Abbreviation call :=
  (call parse_qs to_datetime polarity_scores int_of_str utf8_decode
        json_string json_float).

Lemma sorted_results_eq l :
  sorted_results l = (scorer_calls l, inr (results_of l)).
Proof.
  unfold sorted_results, results_of.
  assert (for_append
            (fun review =>
               let* sentiment := analyze_sentiment polarity_scores
                                   (ReviewBody review) in
               ret (review_data review sentiment)) l
          = (scorer_calls l, inr (map scored l))) as ->.
  { induction l as [|r l IH]; [done|].
    cbn [for_append]. rewrite IH.
    unfold bind, ret, analyze_sentiment. simpl. by rewrite app_nil_r. }
  unfold bind, ret. by rewrite app_nil_r.
Qed.

(** The second half of a GET cannot fail. *)
Lemma respond_results_eq l :
  respond_results l = (scorer_calls l, inr (ok_response l)).
Proof.
  unfold respond_results. rewrite sorted_results_eq.
  unfold bind, ret. by rewrite app_nil_r.
Qed.

(** *** The date filter *)

Lemma parse_if_truthy_ok d :
  query_value d → parses d →
  parse_if_truthy d = (parameter_parse d, inr (date_of_bound (bound d))).
Proof.
  intros Hq Hp. destruct d as [s|]; [|done].
  destruct (Hp s eq_refl) as [t Ht].
  assert (s ≠ "") as Hs by (intros ->; by apply Hq).
  unfold parse_if_truthy, parameter_parse.
  apply truthy_Some in Hs. rewrite Hs.
  simpl in Hs. apply negb_true_iff in Hs. rewrite Hs.
  unfold pd_to_datetime, bind, ret. simpl. by rewrite Ht.
Qed.

Lemma parse_if_truthy_None : parse_if_truthy None = ret DateNone.
Proof. done. Qed.

Lemma parse_if_truthy_blank :
  parse_if_truthy (Some "") = ret (DateStr "").
Proof. done. Qed.

Lemma parse_if_truthy_bad s :
  s ≠ "" → to_datetime s = None →
  parse_if_truthy (Some s) = (parameter_parse (Some s), inl ValueError).
Proof.
  intros Hs Ht. unfold parse_if_truthy, parameter_parse.
  apply truthy_Some in Hs. rewrite Hs.
  simpl in Hs. apply negb_true_iff in Hs. rewrite Hs.
  unfold pd_to_datetime, bind. by rewrite Ht.
Qed.

Lemma mixed_false_ge t t0 :
  mixed t t0 = false → pd_ge t t0 = Some (default false (pd_ge t t0)).
Proof. by destruct t, t0. Qed.

Lemma mixed_false_le t t1 :
  mixed t t1 = false → pd_le t t1 = Some (default false (pd_le t t1)).
Proof. by destruct t, t1. Qed.

Lemma mixed_true t t0 :
  mixed t t0 = true → pd_ge t t0 = None ∧ pd_le t t0 = None.
Proof. by destruct t, t0. Qed.

Lemma in_date_range_ok lower upper review :
  comparable lower review → comparable upper review →
  ∃ tr, in_date_range (date_of_bound lower) (date_of_bound upper) review
        = (tr, inr (within lower upper review))
      ∧ Forall (eq (ev_to_datetime (Timestamp review))) tr.
Proof.
  intros (t & Ht & Hl) (t' & Ht' & Hu).
  rewrite Ht in Ht'. injection Ht' as <-.
  unfold in_date_range, within.
  unfold pd_to_datetime, timestamp_ge, timestamp_le, bind, ret.
  rewrite Ht.
  destruct lower as [t0|], upper as [t1|]; simpl;
    try rewrite (mixed_false_ge t t0) by auto;
    try destruct (default false (pd_ge t t0)); simpl;
    try rewrite (mixed_false_le t t1) by auto; simpl;
    eexists; (split; [reflexivity|]); repeat constructor.
Qed.

Lemma in_date_range_unbounded review :
  in_date_range DateNone DateNone review = ([], inr true).
Proof. done. Qed.

Lemma in_date_range_bad lower upper review :
  lower ≠ None ∨ upper ≠ None →
  to_datetime (Timestamp review) = None →
  in_date_range (date_of_bound lower) (date_of_bound upper) review
  = ([ev_to_datetime (Timestamp review)], inl ValueError).
Proof.
  intros Hb Ht. unfold in_date_range.
  unfold pd_to_datetime, bind, ret. rewrite Ht.
  destruct lower, upper; simpl; try done. by destruct Hb.
Qed.

(** A Timestamp of the other kind than the start, or than the end when
    the start lets the review through, raises [TypeError]. *)
Lemma in_date_range_clash lower upper review t :
  to_datetime (Timestamp review) = Some t →
  (∃ t0, lower = Some t0 ∧ mixed t t0 = true)
  ∨ ((lower = None ∨ ∃ t0, lower = Some t0 ∧ pd_ge t t0 = Some true)
     ∧ ∃ t1, upper = Some t1 ∧ mixed t t1 = true) →
  ∃ tr, in_date_range (date_of_bound lower) (date_of_bound upper) review
        = (tr, inl TypeError).
Proof.
  intros Ht H. unfold in_date_range.
  unfold pd_to_datetime, timestamp_ge, timestamp_le, bind, ret, raise.
  rewrite Ht.
  destruct H as [(t0 & -> & [Hm _]%mixed_true)
                |[[->|(t0 & -> & Hge)] (t1 & -> & [_ Hm]%mixed_true)]];
    simpl.
  - rewrite Hm. by eexists.
  - rewrite Hm. by eexists.
  - rewrite Hge. simpl. rewrite Hm. by eexists.
Qed.

Lemma comprehension_within lower upper l :
  (lower ≠ None ∨ upper ≠ None →
   Forall (fun r => comparable lower r ∧ comparable upper r) l) →
  ∃ tr, comprehension
          (in_date_range (date_of_bound lower) (date_of_bound upper)) l
        = (tr, inr (List.filter (within lower upper) l)).
Proof.
  induction l as [|r l IH]; intros Hl; [by eexists|].
  destruct IH as [tr IH].
  { intros Hb. apply Hl in Hb. by inversion Hb. }
  cbn [comprehension List.filter].
  assert (∃ tr', in_date_range (date_of_bound lower) (date_of_bound upper) r
                 = (tr', inr (within lower upper r))) as [tr' ->].
  { destruct lower as [t0|] eqn:El, upper as [t1|] eqn:Eu;
      [| | |by eexists];
      (assert (comparable lower r ∧ comparable upper r) as [H1 H2]
         by (assert (Forall (fun r => comparable lower r ∧ comparable upper r)
                            (r :: l)) as Hr
               by (subst lower upper; apply Hl; auto);
             by inversion Hr));
      destruct (in_date_range_ok lower upper r H1 H2) as (tr' & H & _);
      subst lower upper; eauto. }
  rewrite IH. unfold bind, ret. simpl. eexists. reflexivity.
Qed.

(** The comprehension ends at the first review on which the test
    raises. *)
Lemma comprehension_stops lower upper before r after tr_r e :
  Forall (fun r => comparable lower r ∧ comparable upper r) before →
  in_date_range (date_of_bound lower) (date_of_bound upper) r
  = (tr_r, inl e) →
  ∃ tr, comprehension
          (in_date_range (date_of_bound lower) (date_of_bound upper))
          (before ++ r :: after)
        = (tr ++ tr_r, inl e).
Proof.
  intros Hb Hr. induction Hb as [|x before [H1 H2] Hb IH]; simpl.
  - rewrite Hr. by exists [].
  - destruct (in_date_range_ok lower upper x H1 H2) as (tr' & -> & _).
    destruct IH as [tr ->]. unfold bind. exists (tr' ++ tr).
    by rewrite app_assoc.
Qed.

Lemma comprehension_unparseable lower upper before r after :
  lower ≠ None ∨ upper ≠ None →
  Forall (fun r => comparable lower r ∧ comparable upper r) before →
  to_datetime (Timestamp r) = None →
  ∃ tr, comprehension
          (in_date_range (date_of_bound lower) (date_of_bound upper))
          (before ++ r :: after)
        = (tr ++ [ev_to_datetime (Timestamp r)], inl ValueError).
Proof.
  intros Hb Hbefore Hr.
  eapply comprehension_stops; [done|].
  by apply in_date_range_bad.
Qed.

(** When some date is supplied, one of the two bounds is set. *)
Lemma bound_set start_date end_date :
  query_value start_date → query_value end_date →
  parses start_date → parses end_date →
  truthy start_date || truthy end_date = true →
  bound start_date ≠ None ∨ bound end_date ≠ None.
Proof.
  intros _ _ Hs He Ht. apply orb_true_iff in Ht as [Ht|Ht];
    apply truthy_true in Ht as (s & -> & _); [left|right]; simpl.
  - destruct (Hs s eq_refl) as [t ->]. done.
  - destruct (He s eq_refl) as [t ->]. done.
Qed.

Lemma bound_unset start_date end_date :
  query_value start_date → query_value end_date →
  truthy start_date || truthy end_date = false →
  start_date = None ∧ end_date = None.
Proof.
  intros Hs He Ht. apply orb_false_iff in Ht as [H1 H2].
  split.
  - destruct start_date as [s|]; [|done]. exfalso.
    simpl in H1. apply negb_false_iff, String.eqb_eq in H1. subst.
    by apply Hs.
  - destruct end_date as [s|]; [|done]. exfalso.
    simpl in H2. apply negb_false_iff, String.eqb_eq in H2. subst.
    by apply He.
Qed.

Lemma filter_dates_ok start_date end_date l :
  query_value start_date → query_value end_date →
  parses start_date → parses end_date →
  (bound start_date ≠ None ∨ bound end_date ≠ None →
   Forall (fun r => comparable (bound start_date) r
                    ∧ comparable (bound end_date) r) l) →
  ∃ tr, filter_dates start_date end_date l
        = (parameter_parses start_date end_date ++ tr,
           inr (List.filter (within (bound start_date) (bound end_date)) l)).
Proof.
  intros Hqs Hqe Hs He Hl. unfold filter_dates.
  rewrite (parse_if_truthy_ok _ Hqs Hs), bind_inr.
  rewrite (parse_if_truthy_ok _ Hqe He), bind_inr.
  destruct (comprehension_within _ _ _ Hl) as [tr ->].
  exists tr. simpl. unfold parameter_parses. by rewrite app_assoc.
Qed.

Lemma filter_dates_stops start_date end_date before r after tr_r e :
  query_value start_date → query_value end_date →
  parses start_date → parses end_date →
  Forall (fun r => comparable (bound start_date) r
                   ∧ comparable (bound end_date) r) before →
  in_date_range (date_of_bound (bound start_date))
                (date_of_bound (bound end_date)) r = (tr_r, inl e) →
  ∃ tr, filter_dates start_date end_date (before ++ r :: after)
        = (tr ++ tr_r, inl e).
Proof.
  intros Hqs Hqe Hs He Hb Hr. unfold filter_dates.
  rewrite (parse_if_truthy_ok _ Hqs Hs), bind_inr.
  rewrite (parse_if_truthy_ok _ Hqe He), bind_inr.
  destruct (comprehension_stops _ _ before r after _ _ Hb Hr) as [tr ->].
  simpl. eexists. by rewrite !app_assoc.
Qed.

Lemma filter_dates_unparseable start_date end_date before r after :
  query_value start_date → query_value end_date →
  parses start_date → parses end_date →
  truthy start_date || truthy end_date = true →
  Forall (fun r => comparable (bound start_date) r
                   ∧ comparable (bound end_date) r) before →
  to_datetime (Timestamp r) = None →
  ∃ tr, filter_dates start_date end_date (before ++ r :: after)
        = (tr ++ [ev_to_datetime (Timestamp r)], inl ValueError).
Proof.
  intros Hqs Hqe Hs He Ht Hb Hr.
  eapply filter_dates_stops; try done.
  apply in_date_range_bad; [|done].
  by apply bound_set.
Qed.

(** A date parameter that cannot be parsed ends the [try] body before any
    review is looked at. *)
Lemma filter_dates_bad_parameter start_date end_date l :
  (∃ s, start_date = Some s ∧ s ≠ "" ∧ to_datetime s = None)
  ∨ (∃ s, end_date = Some s ∧ s ≠ "" ∧ to_datetime s = None) →
  ∃ tr, filter_dates start_date end_date l = (tr, inl ValueError)
      ∧ tr `prefix_of` parameter_parses start_date end_date.
Proof.
  intros H. unfold filter_dates, parameter_parses.
  destruct start_date as [s|].
  - destruct (decide (s = "")) as [->|Hs].
    + destruct H as [(s' & [= <-] & Hs' & _)|(s' & -> & Hs' & Ht)]; [done|].
      rewrite parse_if_truthy_blank, bind_ret_l.
      rewrite (parse_if_truthy_bad _ Hs' Ht).
      eexists. split; [reflexivity|]. simpl. reflexivity.
    + destruct (to_datetime s) as [t|] eqn:Es.
      * destruct H as [(s' & [= <-] & _ & Ht)|(s' & -> & Hs' & Ht)];
          [congruence|].
        rewrite (parse_if_truthy_ok (Some s)), bind_inr.
        -- rewrite (parse_if_truthy_bad _ Hs' Ht).
           eexists. split; [reflexivity|]. reflexivity.
        -- intros [= ->]. done.
        -- intros ? [= <-]. by rewrite Es.
      * rewrite (parse_if_truthy_bad _ Hs Es).
        eexists. split; [reflexivity|]. by eexists.
  - destruct H as [(s' & [=] & _)|(s' & -> & Hs' & Ht)].
    rewrite parse_if_truthy_None, bind_ret_l.
    rewrite (parse_if_truthy_bad _ Hs' Ht).
    eexists. split; [reflexivity|]. simpl. reflexivity.
Qed.

(** *** The location filter *)

Lemma filter_location_sublist location reviews :
  filter_location location reviews `sublist_of` reviews.
Proof.
  unfold filter_location. destruct (truthy location); [|done].
  induction reviews as [|r l IH]; simpl; [done|].
  destruct (str_eq_val (Location r) location);
    [by apply sublist_skip|by apply sublist_cons].
Qed.

Lemma elem_of_filter_location location reviews r :
  r ∈ reviews → location_matches location r →
  r ∈ filter_location location reviews.
Proof.
  intros Hr Hm. unfold filter_location.
  destruct (truthy location) eqn:E; [|done].
  apply truthy_true in E as (l & -> & _). simpl in Hm.
  apply list_elem_of_In, List.filter_In. split.
  - by apply list_elem_of_In.
  - simpl. by apply String.eqb_eq.
Qed.

Lemma filter_location_elem_of location reviews r :
  query_value location →
  r ∈ filter_location location reviews →
  r ∈ reviews ∧ location_matches location r.
Proof.
  intros Hq. unfold filter_location.
  destruct (truthy location) eqn:E.
  - apply truthy_true in E as (l & -> & _).
    intros [Hr Hl]%list_elem_of_In%List.filter_In. split.
    + by apply list_elem_of_In.
    + simpl in *. by apply String.eqb_eq in Hl.
  - intros Hr. split; [done|].
    destruct location as [l|]; [|done]. exfalso.
    simpl in E. apply negb_false_iff, String.eqb_eq in E. subst.
    by apply Hq.
Qed.

Lemma filter_reviews_sublist location start_date end_date reviews t filtered :
  filter_reviews location start_date end_date reviews = (t, inr filtered) →
  filtered `sublist_of` reviews.
Proof.
  unfold filter_reviews.
  destruct (truthy start_date || truthy end_date).
  - unfold filter_dates. intros H.
    apply bind_inr_inv in H as (t1 & lower & t2 & _ & H & _).
    apply bind_inr_inv in H as (t3 & upper & t4 & _ & H & _).
    apply comprehension_sublist in H.
    etrans; [exact H|apply filter_location_sublist].
  - intros [= _ <-]. apply filter_location_sublist.
Qed.

(** *** The values of the query *)

Lemma first_value_blank_free params key :
  blank_free params →
  ∃ v, first_value params key = ([], inr v) ∧ query_value v.
Proof.
  intros H. unfold first_value.
  destruct (params !! key) as [[|v values]|] eqn:E.
  - by destruct (H _ _ E) as [? _].
  - exists (Some v). split; [done|].
    destruct (H _ _ E) as [_ Hv]. inversion_clear Hv. by intros [= ->].
  - by exists None.
Qed.

(** With a dictionary as [parse_qs] promises it, the three values of the
    query are read without an exception, and none is blank. *)
Lemma query_fields_blank_free environ :
  blank_free (parse_qs (default "" (QUERY_STRING environ))) →
  ∃ location start_date end_date,
    query_fields environ = ([], inr (location, start_date, end_date))
    ∧ query_value location ∧ query_value start_date
    ∧ query_value end_date.
Proof.
  intros H. unfold query_fields.
  destruct (first_value_blank_free _ "location" H) as (l & -> & Hl).
  destruct (first_value_blank_free _ "start_date" H) as (s & -> & Hs).
  destruct (first_value_blank_free _ "end_date" H) as (e & -> & He).
  by exists l, s, e.
Qed.

(** *** A GET, case by case *)

Lemma query_fields_trace environ : fst (query_fields environ) = [].
Proof.
  unfold query_fields, first_value, bind, ret, raise.
  repeat case_match; simplify_eq; done.
Qed.

Lemma call_GET environ world reviews :
  REQUEST_METHOD environ = "GET" →
  call environ world reviews
  = match do_GET environ reviews with
    | (t, inr response) => (t, Responded response, reviews)
    | (t, inl e) => (t, Raised e, reviews)
    end.
Proof. intros H. unfold call. by rewrite H. Qed.

Lemma do_GET_fields_raise environ reviews t e :
  query_fields environ = (t, inl e) → do_GET environ reviews = (t, inl e).
Proof. intros H. unfold do_GET. by rewrite H. Qed.

(** The [try] statement may as well start at the location filter, which
    raises nothing. *)
Lemma do_GET_fields environ reviews t location start_date end_date :
  query_fields environ = (t, inr (location, start_date, end_date)) →
  do_GET environ reviews
  = try_except_ValueError
      (filter_reviews location start_date end_date reviews)
      (ret (bad_request "Invalid date format"))
      respond_results.
Proof.
  intros H. unfold do_GET.
  pose proof (query_fields_trace environ) as Ht. rewrite H in Ht.
  simpl in Ht. subst t. rewrite H, bind_inr. simpl.
  unfold filter_reviews.
  destruct (truthy start_date || truthy end_date).
  - by destruct (try_except_ValueError _ _ _).
  - unfold ret. rewrite try_except_inr. simpl.
    by destruct (respond_results _).
Qed.

Lemma GET_filtered environ world reviews t location start_date end_date
    tf filtered :
  REQUEST_METHOD environ = "GET" →
  query_fields environ = (t, inr (location, start_date, end_date)) →
  filter_reviews location start_date end_date reviews = (tf, inr filtered) →
  call environ world reviews
  = (tf ++ scorer_calls filtered, Responded (ok_response filtered), reviews).
Proof.
  intros Hm Hq Hf. rewrite (call_GET _ _ _ Hm), (do_GET_fields _ _ _ _ _ _ Hq).
  by rewrite Hf, try_except_inr, respond_results_eq.
Qed.

Lemma GET_ValueError environ world reviews t location start_date end_date tf :
  REQUEST_METHOD environ = "GET" →
  query_fields environ = (t, inr (location, start_date, end_date)) →
  filter_reviews location start_date end_date reviews
  = (tf, inl ValueError) →
  call environ world reviews
  = (tf, Responded (bad_request "Invalid date format"), reviews).
Proof.
  intros Hm Hq Hf. rewrite (call_GET _ _ _ Hm), (do_GET_fields _ _ _ _ _ _ Hq).
  rewrite Hf, try_except_ValueError_caught. simpl. by rewrite app_nil_r.
Qed.

Lemma GET_raise environ world reviews t location start_date end_date tf e :
  REQUEST_METHOD environ = "GET" →
  query_fields environ = (t, inr (location, start_date, end_date)) →
  filter_reviews location start_date end_date reviews = (tf, inl e) →
  e ≠ ValueError →
  call environ world reviews = (tf, Raised e, reviews).
Proof.
  intros Hm Hq Hf He. rewrite (call_GET _ _ _ Hm), (do_GET_fields _ _ _ _ _ _ Hq).
  by rewrite Hf, try_except_other.
Qed.

(** A GET ends in one of four ways, and never changes the reviews. *)
Lemma GET_cases environ world reviews :
  REQUEST_METHOD environ = "GET" →
  (∃ t e, query_fields environ = (t, inl e)
          ∧ call environ world reviews = (t, Raised e, reviews))
  ∨ ∃ t location start_date end_date tf,
      query_fields environ = (t, inr (location, start_date, end_date))
      ∧ ((∃ filtered,
            filter_reviews location start_date end_date reviews
            = (tf, inr filtered)
            ∧ call environ world reviews
              = (tf ++ scorer_calls filtered,
                 Responded (ok_response filtered), reviews))
         ∨ (filter_reviews location start_date end_date reviews
            = (tf, inl ValueError)
            ∧ call environ world reviews
              = (tf, Responded (bad_request "Invalid date format"), reviews))
         ∨ (∃ e, e ≠ ValueError
                 ∧ call environ world reviews = (tf, Raised e, reviews))).
Proof.
  intros Hm.
  destruct (query_fields environ) as [t [e|[[location start_date] end_date]]]
    eqn:Hq.
  - left. exists t, e. split; [done|].
    by rewrite (call_GET _ _ _ Hm), (do_GET_fields_raise _ _ _ _ Hq).
  - right. exists t, location, start_date, end_date.
    destruct (filter_reviews location start_date end_date reviews)
      as [tf [e|filtered]] eqn:Hf; exists tf; (split; [done|]).
    + destruct (decide (e = ValueError)) as [->|He].
      * right. left. split; [done|]. by eapply GET_ValueError.
      * right. right. exists e. split; [done|]. by eapply GET_raise.
    + left. exists filtered. split; [done|]. by eapply GET_filtered.
Qed.

(** *** A POST, case by case *)

Lemma call_POST environ world reviews :
  REQUEST_METHOD environ = "POST" →
  call environ world reviews
  = match do_POST environ world reviews with
    | (t, inr (response, reviews')) => (t, Responded response, reviews')
    | (t, inl e) => (t, Raised e, reviews)
    end.
Proof. intros H. unfold call. by rewrite H. Qed.

Lemma POST_raise environ world reviews t e :
  REQUEST_METHOD environ = "POST" →
  post_fields environ = (t, inl e) →
  call environ world reviews = (t, Raised e, reviews).
Proof.
  intros Hm Hf. rewrite (call_POST _ _ _ Hm).
  unfold do_POST. by rewrite Hf.
Qed.

Lemma POST_required environ world reviews t location review_body :
  REQUEST_METHOD environ = "POST" →
  post_fields environ = (t, inr (location, review_body)) →
  truthy location = false ∨ truthy review_body = false →
  call environ world reviews
  = (t, Responded (bad_request "Location and ReviewBody are required"),
     reviews).
Proof.
  intros Hm Hf Hv. rewrite (call_POST _ _ _ Hm).
  unfold do_POST. rewrite Hf, bind_inr. cbn [fst snd].
  assert (negb (truthy location) || negb (truthy review_body) = true) as ->.
  { destruct Hv as [-> | ->]; [done|]. by rewrite orb_true_r. }
  simpl. by rewrite app_nil_r.
Qed.

Lemma POST_invalid_location environ world reviews t location review_body :
  REQUEST_METHOD environ = "POST" →
  post_fields environ = (t, inr (location, review_body)) →
  truthy location = true → truthy review_body = true →
  val_in location VALID_LOCATIONS = false →
  call environ world reviews
  = (t, Responded (bad_request "Invalid location"), reviews).
Proof.
  intros Hm Hf Hl Hb Hv. rewrite (call_POST _ _ _ Hm).
  unfold do_POST. rewrite Hf, bind_inr. cbn [fst snd].
  rewrite Hl, Hb, Hv. simpl. by rewrite app_nil_r.
Qed.

Lemma POST_created environ world reviews t location review_body :
  REQUEST_METHOD environ = "POST" →
  post_fields environ = (t, inr (Some location, Some review_body)) →
  location ≠ "" → review_body ≠ "" →
  val_in (Some location) VALID_LOCATIONS = true →
  call environ world reviews
  = (t, Responded (created_response (new_review world location review_body)),
     reviews ++ [new_review world location review_body]).
Proof.
  intros Hm Hf Hl%truthy_Some Hb%truthy_Some Hv. rewrite (call_POST _ _ _ Hm).
  unfold do_POST. rewrite Hf, bind_inr. cbn [fst snd].
  rewrite Hl, Hb, Hv. simpl. by rewrite app_nil_r.
Qed.

Lemma val_in_In location l :
  val_in (Some location) l = true ↔ In location l.
Proof.
  simpl. rewrite existsb_exists. split.
  - intros (x & Hx & ->%String.eqb_eq). done.
  - intros H. exists location. split; [done|apply String.eqb_refl].
Qed.

End ServerFacts.

(** ** UUIDs and timestamps *)

Lemma is_hex_hex_char d : is_hex (hex_char d) = true.
Proof.
  destruct d as [|p|p]; [reflexivity| |reflexivity].
  do 4 (try destruct p as [p|p|]); reflexivity.
Qed.

Lemma is_digit_digit_char d : is_digit (digit_char d) = true.
Proof. do 9 (destruct d as [|d]; [reflexivity|]). reflexivity. Qed.

Lemma uuid_str_format x : uuid_format (uuid_str x) = true.
Proof.
  unfold uuid_format, uuid_str.
  cbv -[Z.shiftr Z.land hex_char is_hex].
  by rewrite !is_hex_hex_char.
Qed.

Lemma uuid_str_length x : String.length (uuid_str x) = 36%nat.
Proof.
  pose proof (uuid_str_format x) as H. unfold uuid_format in H.
  apply andb_true_iff in H as [H _]. by apply Nat.eqb_eq in H.
Qed.

Lemma strftime_format t : timestamp_format (strftime t) = true.
Proof.
  unfold timestamp_format, strftime, four_digits, two_digits.
  cbv -[Nat.div Nat.modulo digit_char is_digit].
  by rewrite !is_digit_digit_char.
Qed.


(** ** The readers undo the printers *)

Lemma digit_value_digit_char k :
  (k < 10)%nat → digit_value (digit_char k) = Some k.
Proof. intros H. do 10 (destruct k as [|k]; [reflexivity|]). lia. Qed.

Lemma decimal_app acc l1 l2 :
  decimal acc (l1 ++ l2)
  = match decimal acc l1 with Some a => decimal a l2 | None => None end.
Proof.
  revert acc. induction l1 as [|c l1 IH]; intros acc; simpl; [done|].
  destruct (digit_value c); [apply IH|done].
Qed.

Lemma decimal_two_digits acc n :
  decimal acc (String.list_ascii_of_string (two_digits n))
  = Some (100 * acc + n mod 100)%nat.
Proof.
  unfold two_digits. cbn [String.list_ascii_of_string decimal].
  rewrite !digit_value_digit_char by (apply Nat.mod_upper_bound; lia).
  f_equal. zify. Z.div_mod_to_equations. lia.
Qed.

Lemma list_ascii_of_string_app a b :
  String.list_ascii_of_string (a +:+ b)
  = String.list_ascii_of_string a ++ String.list_ascii_of_string b.
Proof. induction a as [|c a IH]; simpl; [done|]. by rewrite IH. Qed.

Lemma decimal_four_digits n :
  Z.of_nat n < 10000 →
  decimal 0 (String.list_ascii_of_string (four_digits n)) = Some n.
Proof.
  intros H. unfold four_digits.
  rewrite list_ascii_of_string_app, decimal_app, !decimal_two_digits.
  f_equal. zify. Z.div_mod_to_equations. lia.
Qed.

Lemma strftime_chars t :
  String.list_ascii_of_string (strftime t)
  = String.list_ascii_of_string (four_digits (year t)) ++ ["-"%char]
    ++ String.list_ascii_of_string (two_digits (month t)) ++ ["-"%char]
    ++ String.list_ascii_of_string (two_digits (day t)) ++ [" "%char]
    ++ String.list_ascii_of_string (two_digits (hour t)) ++ [":"%char]
    ++ String.list_ascii_of_string (two_digits (minute t)) ++ [":"%char]
    ++ String.list_ascii_of_string (two_digits (second t)).
Proof. reflexivity. Qed.

Lemma timestamp_fields_strftime t :
  calendar_time t = true →
  timestamp_fields (strftime t)
  = Some {| year := year t; month := month t; day := day t;
            hour := hour t; minute := minute t; second := second t;
            microsecond := 0 |}.
Proof.
  unfold calendar_time. rewrite !andb_true_iff, !Nat.leb_le, !Z.leb_le.
  intros ((((((((Hy & Hy') & _) & Hm) & _) & Hd) & Hh) & Hn) & Hs).
  pose proof (decimal_four_digits (year t)) as Ey.
  pose proof (decimal_two_digits 0 (month t)) as Em.
  pose proof (decimal_two_digits 0 (day t)) as Ed.
  pose proof (decimal_two_digits 0 (hour t)) as Eh.
  pose proof (decimal_two_digits 0 (minute t)) as En.
  pose proof (decimal_two_digits 0 (second t)) as Es.
  rewrite Nat.mod_small in Em, Ed, Eh, En, Es by lia.
  unfold timestamp_fields.
  change (String.list_ascii_of_string (strftime t))
    with (String.list_ascii_of_string (four_digits (year t)) ++ ["-"%char]
    ++ String.list_ascii_of_string (two_digits (month t)) ++ ["-"%char]
    ++ String.list_ascii_of_string (two_digits (day t)) ++ [" "%char]
    ++ String.list_ascii_of_string (two_digits (hour t)) ++ [":"%char]
    ++ String.list_ascii_of_string (two_digits (minute t)) ++ [":"%char]
    ++ String.list_ascii_of_string (two_digits (second t))).
  unfold four_digits in *. unfold two_digits in *.
  cbv [String.append String.list_ascii_of_string app] in *.
  cbv beta iota.
  change (Ascii.eqb "-" "-") with true. change (Ascii.eqb " " " ") with true.
  change (Ascii.eqb ":" ":") with true. cbv [andb].
  rewrite Ey, Em, Ed, Eh, En, Es by lia. reflexivity.
Qed.

Lemma uuid4_testbit x m :
  0 <= m →
  Z.testbit (uuid4 x) m
  = (((Z.testbit x m && negb (Z.testbit (Z.shiftl 0xc000 48) m)
       || Z.testbit (Z.shiftl 0x8000 48) m)
      && negb (Z.testbit (Z.shiftl 0xf000 64) m))
     || Z.testbit (Z.shiftl 4 76) m).
Proof.
  intros Hm. unfold uuid4.
  by rewrite !Z.lor_spec, !Z.land_spec, !Z.lnot_spec, !Z.lor_spec,
    !Z.land_spec, !Z.lnot_spec by lia.
Qed.

Lemma hex_value_hex_char d : 0 ≤ d < 16 → hex_value (hex_char d) = Some d.
Proof.
  intros H.
  assert (d = 0 ∨ d = 1 ∨ d = 2 ∨ d = 3 ∨ d = 4 ∨ d = 5 ∨ d = 6 ∨ d = 7
          ∨ d = 8 ∨ d = 9 ∨ d = 10 ∨ d = 11 ∨ d = 12 ∨ d = 13 ∨ d = 14
          ∨ d = 15) as Hcases by lia.
  repeat (destruct Hcases as [->|Hcases]; [reflexivity|]).
  by subst.
Qed.

Lemma hexadecimal_app acc l1 l2 :
  hexadecimal acc (l1 ++ l2)
  = match hexadecimal acc l1 with
    | Some a => hexadecimal a l2
    | None => None
    end.
Proof.
  revert acc. induction l1 as [|c l1 IH]; intros acc; simpl; [done|].
  destruct (hex_value c); [apply IH|done].
Qed.

Lemma hexadecimal_hex_digits n acc x :
  hexadecimal acc (String.list_ascii_of_string (hex_digits n x))
  = Some (acc * 16 ^ Z.of_nat n + x mod 16 ^ Z.of_nat n).
Proof.
  revert acc x. induction n as [|n IH]; intros acc x.
  - simpl. rewrite Z.mod_1_r. f_equal. lia.
  - cbn [hex_digits].
    rewrite list_ascii_of_string_app, hexadecimal_app, IH.
    cbn [String.list_ascii_of_string hexadecimal].
    change 15 with (Z.ones 4). rewrite Z.land_ones by lia.
    rewrite hex_value_hex_char by (apply Z.mod_pos_bound; lia).
    rewrite Z.shiftr_div_pow2 by lia.
    rewrite Nat2Z.inj_succ, Z.pow_succ_r by lia.
    change (2 ^ 4) with 16.
    rewrite (Z.rem_mul_r x 16 (16 ^ Z.of_nat n)) by lia.
    f_equal. ring.
Qed.

Lemma length_hex_digits n x :
  length (String.list_ascii_of_string (hex_digits n x)) = n.
Proof.
  revert x. induction n as [|n IH]; intros x; [done|].
  cbn [hex_digits]. rewrite list_ascii_of_string_app, length_app, IH.
  simpl. lia.
Qed.

Lemma uuid_int_hex l :
  length l = 32%nat →
  uuid_int
    (let hex := String.string_of_list_ascii l in
     slice 0 8 hex +:+ "-" +:+ slice 8 12 hex +:+ "-" +:+ slice 12 16 hex
       +:+ "-" +:+ slice 16 20 hex +:+ "-" +:+ slice 20 32 hex)
  = hexadecimal 0 l.
Proof.
  intros H.
  do 32 (destruct l as [|? l]; [discriminate H|]).
  destruct l; [|discriminate H].
  reflexivity.
Qed.

Lemma uuid_int_uuid_str x :
  uuid_int (uuid_str x) = Some (x mod 2 ^ 128).
Proof.
  unfold uuid_str.
  rewrite <- (String.string_of_list_ascii_of_string (hex_digits 32 x)).
  rewrite uuid_int_hex by apply length_hex_digits.
  rewrite hexadecimal_hex_digits. f_equal.
Qed.

Lemma below_pow2 y n :
  0 ≤ y → 0 ≤ n → (∀ m, n ≤ m → Z.testbit y m = false) → y < 2 ^ n.
Proof.
  intros Hy Hn Hbits.
  destruct (Z.eq_dec y 0) as [->|Hne]; [by apply Z.pow_pos_nonneg|].
  apply Z.log2_lt_pow2; [lia|].
  destruct (Z_lt_le_dec (Z.log2 y) n) as [|Hge]; [done|].
  pose proof (Z.bit_log2 y ltac:(lia)) as Hb.
  rewrite (Hbits _ Hge) in Hb. done.
Qed.

Lemma uuid4_range x : 0 ≤ x < 2 ^ 128 → 0 ≤ uuid4 x < 2 ^ 128.
Proof.
  intros [H0 H1]. split.
  - unfold uuid4. rewrite !Z.lor_nonneg, !Z.land_nonneg, !Z.lor_nonneg,
      !Z.land_nonneg. split; [|done]. left. split; [|done]. by left.
  - apply below_pow2; [|lia|].
    + unfold uuid4. rewrite !Z.lor_nonneg, !Z.land_nonneg, !Z.lor_nonneg,
        !Z.land_nonneg. split; [|done]. left. split; [|done]. by left.
    + intros m Hm. rewrite uuid4_testbit by lia.
      assert (Z.testbit x m = false) as ->.
      { destruct (Z.eq_dec x 0) as [->|Hne]; [apply Z.bits_0|].
        apply Z.bits_above_log2; [done|].
        assert (Z.log2 x < 128) by (apply Z.log2_lt_pow2; lia). lia. }
      rewrite !(Z.bits_above_log2 _ m); try done; simpl; lia.
Qed.

(** The three error bodies, byte for byte. *)
Lemma bad_request_bytes message :
  bad_request message
  = {| status := "400 Bad Request";
       headers := [("Content-Type", "application/json")];
       body := [error_body message] |}.
Proof. reflexivity. Qed.

Lemma error_body_invalid_date :
  error_body "Invalid date format"
  = json_text "{'error': 'Invalid date format'}".
Proof. reflexivity. Qed.

Lemma error_body_required :
  error_body "Location and ReviewBody are required"
  = json_text "{'error': 'Location and ReviewBody are required'}".
Proof. reflexivity. Qed.

Lemma error_body_invalid_location :
  error_body "Invalid location" = json_text "{'error': 'Invalid location'}".
Proof. reflexivity. Qed.

(** * The claims *)
Section Claims.
Variable parse_qs : string → gmap string (list string).
Variable to_datetime : string → option pd_datetime.
Variable polarity_scores : string → Sentiment.
Variable int_of_str : string → option Z.
Variable utf8_decode : bytes → option string.
Variable json_string : string → string.
Variable json_float : Q → string.

Local Abbreviation query_fields := (query_fields parse_qs).
Local Abbreviation post_fields := (post_fields parse_qs int_of_str utf8_decode).
Local Abbreviation filter_reviews := (filter_reviews to_datetime).
Local Abbreviation dumps_results := (dumps_results json_string json_float).
Local Abbreviation dumps_review := (dumps_review json_string).
Local Abbreviation scored := (scored polarity_scores).
Local Abbreviation results_of := (results_of polarity_scores).
Local Abbreviation ok_response :=
  (ok_response polarity_scores json_string json_float).
Local Abbreviation created_response := (created_response json_string).
Local Abbreviation not_before := (not_before to_datetime).
Local Abbreviation not_after := (not_after to_datetime).
Local Abbreviation parses := (parses to_datetime).
Local Abbreviation timestamp_parses := (timestamp_parses to_datetime).
Local Abbreviation call :=
  (call parse_qs to_datetime polarity_scores int_of_str utf8_decode
        json_string json_float).

Lemma results_of_descending filtered : descending (results_of filtered).
Proof.
  intros i a b Ha Hb.
  exact (StronglySorted_adjacent _ _ _ _ _
           (list_sort_descending compound_key (map scored filtered)) Ha Hb).
Qed.

Lemma results_of_ties_in_order filtered :
  ties_in_order (results_of filtered) (map scored filtered).
Proof. intros c. apply list_sort_stable. Qed.

(** C1. The records of a 200 response to a GET are the scored reviews
    that passed the filter, sorted by [sentiment.compound]: no record has
    a higher compound score than the record before it, and records of
    equal compound score are in the order the filter left them in, which
    is the order of the store. *)
Theorem get_sorted_by_compound environ world reviews tr response reviews' :
  REQUEST_METHOD environ = "GET" →
  call environ world reviews = (tr, Responded response, reviews') →
  status response = "200 OK" →
  ∃ t location start_date end_date tf filtered,
    query_fields environ = (t, inr (location, start_date, end_date))
    ∧ filter_reviews location start_date end_date reviews
      = (tf, inr filtered)
    ∧ filtered `sublist_of` reviews
    ∧ body response = [utf8_encode (dumps_results (results_of filtered))]
    ∧ results_of filtered ≡ₚ map scored filtered
    ∧ descending (results_of filtered)
    ∧ ties_in_order (results_of filtered) (map scored filtered).
Proof.
  intros Hm Hc Hs.
  destruct (GET_cases parse_qs to_datetime polarity_scores int_of_str
              utf8_decode json_string json_float environ world reviews Hm)
    as [(t & e & _ & Hc')
       |(t & location & start_date & end_date & tf & Hq
         & [(filtered & Hf & Hc')|[[Hf Hc']|(e & _ & Hc')]])];
    rewrite Hc' in Hc; simplify_eq; try done.
  exists t, location, start_date, end_date, tf, filtered.
  repeat split; try done.
  - by eapply filter_reviews_sublist.
  - apply list_sort_perm.
  - apply results_of_descending.
  - apply results_of_ties_in_order.
Qed.

Lemma within_spec start_date end_date review :
  parses start_date → parses end_date →
  within to_datetime (bound to_datetime start_date)
         (bound to_datetime end_date) review = true
  ↔ not_before start_date review ∧ not_after end_date review.
Proof.
  intros Hs He. unfold within, not_before, not_after.
  rewrite andb_true_iff.
  cut (∀ (P Q P' Q' : Prop), (P ↔ P') → (Q ↔ Q') → (P ∧ Q ↔ P' ∧ Q'));
    [|tauto].
  intros Hcut. apply Hcut; clear Hcut.
  - destruct start_date as [s|]; simpl; [|done].
    destruct (Hs s eq_refl) as [t0 Ht0]. rewrite Ht0.
    destruct (to_datetime (Timestamp review)) as [t|]; split.
    + intros H. exists t0, t. by destruct (pd_ge t t0) as [[]|].
    + intros (? & ? & [= <-] & [= <-] & H). by rewrite H.
    + done.
    + by intros (? & ? & _ & ? & _).
  - destruct end_date as [s|]; simpl; [|done].
    destruct (He s eq_refl) as [t1 Ht1]. rewrite Ht1.
    destruct (to_datetime (Timestamp review)) as [t|]; split.
    + intros H. exists t1, t. by destruct (pd_le t t1) as [[]|].
    + intros (? & ? & [= <-] & [= <-] & H). by rewrite H.
    + done.
    + by intros (? & ? & _ & ? & _).
Qed.

Lemma filter_filter_andb {A} (f g : A → bool) l :
  List.filter f (List.filter g l) = List.filter (fun x => g x && f x) l.
Proof.
  induction l as [|x l IH]; simpl; [done|].
  destruct (g x); simpl; [destruct (f x)|]; by rewrite IH.
Qed.

Lemma filter_location_filter location reviews :
  filter_location location reviews
  = List.filter
      (fun r => negb (truthy location) || str_eq_val (Location r) location)
      reviews.
Proof.
  unfold filter_location. destruct (truthy location); simpl; [done|].
  induction reviews as [|r l IH]; simpl; congruence.
Qed.

Lemma location_test_spec location r :
  query_value location →
  negb (truthy location) || str_eq_val (Location r) location = true
  ↔ location_matches location r.
Proof.
  intros Hq. destruct location as [l|]; simpl; [|done].
  destruct (String.eqb l "") eqn:E.
  - apply String.eqb_eq in E. subst. by destruct Hq.
  - simpl. apply String.eqb_eq.
Qed.



(** C8. A GET in which neither start_date nor end_date is supplied makes
    no call to [pd.to_datetime] at all, and is answered with 200 whatever
    the store holds: the date error cannot occur. *)
Theorem get_without_dates_no_parse environ world reviews
    t location start_date end_date :
  REQUEST_METHOD environ = "GET" →
  query_fields environ = (t, inr (location, start_date, end_date)) →
  truthy start_date = false → truthy end_date = false →
  ∃ tr,
    call environ world reviews
    = (tr, Responded (ok_response (filter_location location reviews)),
       reviews)
    ∧ status (ok_response (filter_location location reviews)) = "200 OK"
    ∧ ∀ s, ev_to_datetime s ∉ tr.
Proof.
  intros Hm Hq Hs He. eexists. split; [|split; [done|]].
  - eapply GET_filtered; [done..|].
    unfold filter_reviews. rewrite Hs, He. reflexivity.
  - intros s. simpl. unfold scorer_calls.
    rewrite list_elem_of_fmap. by intros (? & ? & _).
Qed.

(** C9. A GET never changes the list of reviews, however it ends; and
    when no review passes the filter the answer is 200 with the empty
    array [[]] as its body. *)
Theorem get_read_only environ world reviews :
  REQUEST_METHOD environ = "GET" →
  (∀ tr o reviews',
     call environ world reviews = (tr, o, reviews') → reviews' = reviews)
  ∧ (∀ t location start_date end_date tf,
       query_fields environ = (t, inr (location, start_date, end_date)) →
       filter_reviews location start_date end_date reviews = (tf, inr []) →
       call environ world reviews
       = (tf,
          Responded
            {| status := "200 OK";
               headers := [("Content-Type", "application/json");
                           ("Content-Length", "2")];
               body := [utf8_encode "[]"] |},
          reviews)).
Proof.
  intros Hm. split.
  - intros tr o reviews' Hc.
    destruct (GET_cases parse_qs to_datetime polarity_scores int_of_str
                utf8_decode json_string json_float environ world reviews Hm)
      as [(t & e & _ & Hc')
         |(t & location & start_date & end_date & tf & Hq
           & [(filtered & Hf & Hc')|[[Hf Hc']|(e & _ & Hc')]])];
      rewrite Hc' in Hc; by simplify_eq.
  - intros t location start_date end_date tf Hq Hf.
    rewrite (GET_filtered _ _ _ _ _ _ _ _ _ _ _ _ _ _ _ _ Hm Hq Hf).
    simpl. by rewrite app_nil_r.
Qed.

Lemma filter_location_app location l1 l2 :
  filter_location location (l1 ++ l2)
  = filter_location location l1 ++ filter_location location l2.
Proof.
  unfold filter_location. destruct (truthy location); [|done].
  apply List.filter_app.
Qed.

Lemma filter_location_cons location r l :
  location_matches location r →
  filter_location location (r :: l) = r :: filter_location location l.
Proof.
  intros Hm. unfold filter_location.
  destruct (truthy location) eqn:E; [|done].
  apply truthy_true in E as (x & -> & _). simpl in *.
  by rewrite (proj2 (String.eqb_eq _ _) Hm).
Qed.


(** A POST ends in one of four ways. *)
Lemma POST_cases environ world reviews :
  REQUEST_METHOD environ = "POST" →
  (∃ t e, post_fields environ = (t, inl e)
          ∧ call environ world reviews = (t, Raised e, reviews))
  ∨ ∃ t location review_body,
      post_fields environ = (t, inr (location, review_body))
      ∧ (((truthy location = false ∨ truthy review_body = false)
          ∧ call environ world reviews
            = (t, Responded
                    (bad_request "Location and ReviewBody are required"),
               reviews))
         ∨ (truthy location = true ∧ truthy review_body = true
            ∧ val_in location VALID_LOCATIONS = false
            ∧ call environ world reviews
              = (t, Responded (bad_request "Invalid location"), reviews))
         ∨ (∃ l b, location = Some l ∧ review_body = Some b
                   ∧ l ≠ "" ∧ b ≠ "" ∧ In l VALID_LOCATIONS
                   ∧ call environ world reviews
                     = (t, Responded (created_response (new_review world l b)),
                        reviews ++ [new_review world l b]))).
Proof.
  intros Hm.
  destruct (post_fields environ) as [t [e|[location review_body]]] eqn:Hf.
  - left. exists t, e. split; [done|]. by eapply POST_raise.
  - right. exists t, location, review_body. split; [done|].
    destruct (truthy location) eqn:Hl;
      [|left; split; [by left|]; eapply POST_required; eauto].
    destruct (truthy review_body) eqn:Hb;
      [|left; split; [by right|]; eapply POST_required; eauto].
    destruct (val_in location VALID_LOCATIONS) eqn:Hv;
      [|right; left; repeat split; try done;
        by eapply POST_invalid_location].
    right. right.
    apply truthy_true in Hl as (l & -> & Hl).
    apply truthy_true in Hb as (b & -> & Hb).
    exists l, b. repeat split; try done.
    + by apply val_in_In.
    + by eapply POST_created.
Qed.

(** C4. A POST in which Location or ReviewBody is missing or empty is
    answered with the status [400 Bad Request] and the bytes of
    [{"error": "Location and ReviewBody are required"}]; one in which
    both are present and Location is not one of the valid locations is
    answered with the status [400 Bad Request] and the bytes of
    [{"error": "Invalid location"}]; and whenever a POST ends in anything
    but a 201 response, the list of reviews is what it was. *)
Theorem post_rejected_unchanged environ world reviews t location review_body :
  REQUEST_METHOD environ = "POST" →
  post_fields environ = (t, inr (location, review_body)) →
  (truthy location = false ∨ truthy review_body = false →
   call environ world reviews
   = (t,
      Responded
        {| status := "400 Bad Request";
           headers := [("Content-Type", "application/json")];
           body :=
             [json_text
                "{'error': 'Location and ReviewBody are required'}"] |},
      reviews))
  ∧ (truthy location = true → truthy review_body = true →
     val_in location VALID_LOCATIONS = false →
     call environ world reviews
     = (t,
        Responded
          {| status := "400 Bad Request";
             headers := [("Content-Type", "application/json")];
             body := [json_text "{'error': 'Invalid location'}"] |},
        reviews))
  ∧ (∀ tr o reviews',
       call environ world reviews = (tr, o, reviews') →
       (∀ r, o = Responded r → status r ≠ "201 Created") →
       reviews' = reviews).
Proof.
  intros Hm Hf. split; [|split].
  - rewrite <- error_body_required, <- bad_request_bytes.
    by eapply POST_required.
  - rewrite <- error_body_invalid_location, <- bad_request_bytes.
    by eapply POST_invalid_location.
  - intros tr o reviews' Hc Ho.
    destruct (POST_cases environ world reviews Hm)
      as [(t' & e & _ & Hc')
         |(t' & location' & review_body' & _
           & [[_ Hc']|[(_ & _ & _ & Hc')
                      |(l & b & _ & _ & _ & _ & _ & Hc')]])];
      rewrite Hc' in Hc; simplify_eq; try done.
    by destruct (Ho _ eq_refl).
Qed.


(** C6. The valid locations are the eighteen city and state pairs that
    section 6 of the specification lists, each written as the full
    [City, State] string; a POST with a Location and a ReviewBody is
    accepted (answered with 201) if and only if its Location is one of
    these eighteen strings. *)
Theorem valid_locations_exact environ world reviews t location review_body :
  REQUEST_METHOD environ = "POST" →
  post_fields environ = (t, inr (Some location, Some review_body)) →
  location ≠ "" → review_body ≠ "" →
  VALID_LOCATIONS = map city_state spec_locations
  ∧ length VALID_LOCATIONS = 18%nat
  ∧ NoDup VALID_LOCATIONS
  ∧ ((∃ tr response reviews',
        call environ world reviews = (tr, Responded response, reviews')
        ∧ status response = "201 Created")
     ↔ In location (map city_state spec_locations)).
Proof.
  intros Hm Hf Hl Hb.
  assert (VALID_LOCATIONS = map city_state spec_locations) as <-
    by reflexivity.
  split; [done|]. split; [done|].
  split; [apply (bool_decide_unpack _); by vm_compute|].
  split.
  - intros (tr & response & reviews' & Hc & Hs).
    destruct (val_in (Some location) VALID_LOCATIONS) eqn:Hv;
      [by apply val_in_In|].
    erewrite POST_invalid_location in Hc; eauto; try by apply truthy_Some.
    by simplify_eq.
  - intros Hv. eexists _, _, _.
    split; [eapply POST_created; eauto; by apply val_in_In|reflexivity].
Qed.

(** X24. Every response carries [Content-Type: application/json].  A 200
    or 201 response also carries a [Content-Length] header whose value is
    the decimal number of bytes of the body; a 400 response carries the
    [Content-Type] header only. *)
Theorem response_headers environ world reviews tr response reviews' :
  call environ world reviews = (tr, Responded response, reviews') →
  In ("Content-Type", "application/json") (headers response)
  ∧ (((status response = "200 OK" ∨ status response = "201 Created")
      ∧ ∃ response_body,
          body response = [response_body]
          ∧ headers response
            = [("Content-Type", "application/json");
               ("Content-Length", str_of_nat (length response_body))])
     ∨ (status response = "400 Bad Request"
        ∧ headers response = [("Content-Type", "application/json")])).
Proof.
  intros Hc.
  destruct (String.eqb (REQUEST_METHOD environ) "GET") eqn:Hg.
  - apply String.eqb_eq in Hg.
    destruct (GET_cases parse_qs to_datetime polarity_scores int_of_str
                utf8_decode json_string json_float environ world reviews Hg)
      as [(t & e & _ & Hc')
         |(t & location & start_date & end_date & tf & Hq
           & [(filtered & Hf & Hc')|[[Hf Hc']|(e & _ & Hc')]])];
      rewrite Hc' in Hc; simplify_eq.
    + split; [by left|]. left. split; [by left|]. by eexists.
    + split; [by left|]. by right.
  - destruct (String.eqb (REQUEST_METHOD environ) "POST") eqn:Hp.
    + apply String.eqb_eq in Hp.
      destruct (POST_cases environ world reviews Hp)
        as [(t' & e & _ & Hc')
           |(t' & location' & review_body' & _
             & [[_ Hc']|[(_ & _ & _ & Hc')
                        |(l & b & _ & _ & _ & _ & _ & Hc')]])];
        rewrite Hc' in Hc; simplify_eq.
      * split; [by left|]. by right.
      * split; [by left|]. by right.
      * split; [by left|]. left. split; [by right|]. by eexists.
    + unfold call in Hc. rewrite Hg, Hp in Hc. by simplify_eq.
Qed.

End Claims.

(** * The theorems at concrete requests *)

(** The parser of the examples keeps the promise of [parse_qs]. *)
Lemma add_field_blank_free params field :
  blank_free params → blank_free (Demo.add_field params field).
Proof.
  intros H. unfold Demo.add_field.
  destruct (Demo.name_value field) as [[n v]|]; [|done].
  destruct (String.eqb v "") eqn:E; [done|].
  apply String.eqb_neq in E.
  intros key values. rewrite lookup_insert.
  case_decide as Hk; [|by apply H].
  intros [= <-]. split.
  - by destruct (default [] (params !! n)).
  - apply Forall_app. split; [|by repeat constructor].
    destruct (params !! n) as [old|] eqn:En; simpl; [|constructor].
    by destruct (H _ _ En).
Qed.

Lemma demo_parse_qs_blank_free q : blank_free (Demo.parse_qs q).
Proof.
  unfold Demo.parse_qs.
  assert (blank_free (∅ : gmap string (list string))) as H0
    by (intros key values; by rewrite lookup_empty).
  revert H0. generalize (∅ : gmap string (list string)).
  induction (Demo.split_on "&" q) as [|field fields IH]; intros params H;
    [done|].
  simpl. by apply IH, add_field_blank_free.
Qed.

(** C1 on the three Denver reviews: the one scored 0.6588 comes first, the
    two scored 0 follow in the order of the store. *)
Lemma get_sorted_by_compound_witness :
  Demo.results_of [Demo.denver_ok; Demo.denver_great; Demo.denver_fine]
  = [Demo.scored Demo.denver_great; Demo.scored Demo.denver_ok;
     Demo.scored Demo.denver_fine]
  ∧ ∃ t location start_date end_date tf filtered,
      Demo.query_fields (Demo.GET "location=Denver, Colorado")
      = (t, inr (location, start_date, end_date))
      ∧ Demo.filter_reviews location start_date end_date Demo.store
        = (tf, inr filtered)
      ∧ filtered `sublist_of` Demo.store
      ∧ body (Demo.ok_response
                [Demo.denver_ok; Demo.denver_great; Demo.denver_fine])
        = [utf8_encode (Demo.dumps_results (Demo.results_of filtered))]
      ∧ Demo.results_of filtered ≡ₚ map Demo.scored filtered
      ∧ descending (Demo.results_of filtered)
      ∧ ties_in_order (Demo.results_of filtered)
                      (map Demo.scored filtered).
Proof.
  split; [reflexivity|].
  apply (get_sorted_by_compound
           Demo.parse_qs Demo.to_datetime Demo.polarity_scores
           Demo.int_of_str Demo.utf8_decode Demo.json_string Demo.json_float
           (Demo.GET "location=Denver, Colorado") Demo.world Demo.store
           [ev_polarity_scores "ok"; ev_polarity_scores "Great!";
            ev_polarity_scores "fine"]
           (Demo.ok_response
              [Demo.denver_ok; Demo.denver_great; Demo.denver_fine])
           Demo.store).
  - reflexivity.
  - vm_compute. reflexivity.
  - reflexivity.
Defined.


(** The Timestamps of the store of the examples have no time zone, and so
    have the dates of the examples. *)
Lemma demo_store_comparable d t0 r :
  Demo.to_datetime d = Some (Naive t0) → r ∈ Demo.store →
  comparable Demo.to_datetime (bound Demo.to_datetime (Some d)) r.
Proof.
  intros Hd Hr. unfold Demo.store in Hr. simpl. rewrite Hd.
  repeat (apply elem_of_cons in Hr as [-> | Hr];
          [eexists; split; [vm_compute; reflexivity|by intros ? [= <-]]|]).
  by apply elem_of_nil in Hr.
Qed.

Lemma demo_store_comparable_unset r :
  r ∈ Demo.store → comparable Demo.to_datetime None r.
Proof.
  intros Hr. unfold Demo.store in Hr.
  repeat (apply elem_of_cons in Hr as [-> | Hr];
          [eexists; split; [vm_compute; reflexivity|done]|]).
  by apply elem_of_nil in Hr.
Qed.



(** C4 on a form whose Location is not a valid location. *)
Lemma post_rejected_unchanged_witness :
  (truthy (Some "Nowhere") = false ∨ truthy (Some "test") = false →
   Demo.app (Demo.POST "Location=Nowhere&ReviewBody=test") Demo.world
     Demo.store
   = ([],
      Responded
        {| status := "400 Bad Request";
           headers := [("Content-Type", "application/json")];
           body :=
             [json_text
                "{'error': 'Location and ReviewBody are required'}"] |},
      Demo.store))
  ∧ (truthy (Some "Nowhere") = true → truthy (Some "test") = true →
     val_in (Some "Nowhere") VALID_LOCATIONS = false →
     Demo.app (Demo.POST "Location=Nowhere&ReviewBody=test") Demo.world
       Demo.store
     = ([],
        Responded
          {| status := "400 Bad Request";
             headers := [("Content-Type", "application/json")];
             body := [json_text "{'error': 'Invalid location'}"] |},
        Demo.store))
  ∧ (∀ tr o reviews',
       Demo.app (Demo.POST "Location=Nowhere&ReviewBody=test") Demo.world
         Demo.store = (tr, o, reviews') →
       (∀ r, o = Responded r → status r ≠ "201 Created") →
       reviews' = Demo.store).
Proof.
  apply (post_rejected_unchanged
           Demo.parse_qs Demo.to_datetime Demo.polarity_scores
           Demo.int_of_str Demo.utf8_decode Demo.json_string Demo.json_float
           (Demo.POST "Location=Nowhere&ReviewBody=test") Demo.world
           Demo.store [] (Some "Nowhere") (Some "test")).
  - reflexivity.
  - vm_compute. reflexivity.
Defined.

(** The bytes of a short text with two quoted words: a brace, a quote
    (byte 0x22), the letter, a quote, a colon, a space, and so on. *)
Lemma json_text_bytes :
  json_text "{'a': 'b'}"
  = [Byte.x7b; Byte.x22; Byte.x61; Byte.x22; Byte.x3a; Byte.x20;
     Byte.x22; Byte.x62; Byte.x22; Byte.x7d].
Proof. reflexivity. Qed.

(** The two rejections of C4 at forms that get them. *)
Lemma post_rejections :
  Demo.app (Demo.POST "ReviewBody=test") Demo.world Demo.store
  = ([],
     Responded
       {| status := "400 Bad Request";
          headers := [("Content-Type", "application/json")];
          body :=
            [json_text
               "{'error': 'Location and ReviewBody are required'}"] |},
     Demo.store)
  ∧ Demo.app (Demo.POST "Location=Nowhere&ReviewBody=test") Demo.world
      Demo.store
    = ([],
       Responded
         {| status := "400 Bad Request";
            headers := [("Content-Type", "application/json")];
            body := [json_text "{'error': 'Invalid location'}"] |},
       Demo.store).
Proof. split; vm_compute; reflexivity. Qed.


(** C6 on a form whose Location is the last of the eighteen. *)
Lemma valid_locations_exact_witness :
  VALID_LOCATIONS = map city_state spec_locations
  ∧ length VALID_LOCATIONS = 18%nat
  ∧ NoDup VALID_LOCATIONS
  ∧ ((∃ tr response reviews',
        Demo.app (Demo.POST "Location=Tucson, Arizona&ReviewBody=Awful")
          Demo.world Demo.store = (tr, Responded response, reviews')
        ∧ status response = "201 Created")
     ↔ In "Tucson, Arizona" (map city_state spec_locations)).
Proof.
  apply (valid_locations_exact
           Demo.parse_qs Demo.to_datetime Demo.polarity_scores
           Demo.int_of_str Demo.utf8_decode Demo.json_string Demo.json_float
           (Demo.POST "Location=Tucson, Arizona&ReviewBody=Awful")
           Demo.world Demo.store [] "Tucson, Arizona" "Awful").
  - reflexivity.
  - vm_compute. reflexivity.
  - discriminate.
  - discriminate.
Defined.

(** The abbreviated spellings of section 6 are not themselves accepted. *)
Lemma abbreviated_location_rejected :
  Demo.app (Demo.POST "Location=Denver CO&ReviewBody=Great!") Demo.world
    Demo.store
  = ([], Responded (bad_request "Invalid location"), Demo.store).
Proof. vm_compute. reflexivity. Qed.

(** C7. The claim is what the specification asks of every response, and
    the 200 and 201 answers meet it; the three 400 answers do not.  Each
    of them is passed to [start_response] with the [Content-Type] header
    alone, where the 201 answer of the same handler carries a
    [Content-Length] that is the number of bytes of its body. *)
Theorem error_responses_without_content_length :
  (∃ tr response,
     Demo.app (Demo.GET "start_date=yesterday") Demo.world Demo.store
     = (tr, Responded response, Demo.store)
     ∧ status response = "400 Bad Request"
     ∧ body response = [json_text "{'error': 'Invalid date format'}"]
     ∧ headers response = [("Content-Type", "application/json")])
  ∧ (∃ tr response,
       Demo.app (Demo.POST "ReviewBody=test") Demo.world Demo.store
       = (tr, Responded response, Demo.store)
       ∧ status response = "400 Bad Request"
       ∧ body response
         = [json_text "{'error': 'Location and ReviewBody are required'}"]
       ∧ headers response = [("Content-Type", "application/json")])
  ∧ (∃ tr response,
       Demo.app (Demo.POST "Location=Nowhere&ReviewBody=test") Demo.world
         Demo.store
       = (tr, Responded response, Demo.store)
       ∧ status response = "400 Bad Request"
       ∧ body response = [json_text "{'error': 'Invalid location'}"]
       ∧ headers response = [("Content-Type", "application/json")]
       ∧ ∀ value, ¬ In ("Content-Length", value) (headers response))
  ∧ ∃ tr response response_body reviews',
      Demo.app (Demo.POST "Location=Denver, Colorado&ReviewBody=Great!")
        Demo.world Demo.store
      = (tr, Responded response, reviews')
      ∧ status response = "201 Created"
      ∧ body response = [response_body]
      ∧ headers response
        = [("Content-Type", "application/json");
           ("Content-Length", str_of_nat (length response_body))].
Proof.
  split; [|split; [|split]].
  - eexists _, _. split; [vm_compute; reflexivity|]. by repeat split.
  - eexists _, _. split; [vm_compute; reflexivity|]. by repeat split.
  - eexists _, _. split; [vm_compute; reflexivity|].
    repeat split. intros value [H|[]]. discriminate H.
  - eexists _, _, _, _. split; [vm_compute; reflexivity|]. by repeat split.
Qed.

(** X24 on a 200 response. *)
Lemma response_headers_witness :
  In ("Content-Type", "application/json")
     (headers (Demo.ok_response
                 [Demo.denver_ok; Demo.denver_great; Demo.denver_fine]))
  ∧ (((status (Demo.ok_response
                 [Demo.denver_ok; Demo.denver_great; Demo.denver_fine])
       = "200 OK"
       ∨ status (Demo.ok_response
                   [Demo.denver_ok; Demo.denver_great; Demo.denver_fine])
         = "201 Created")
      ∧ ∃ response_body,
          body (Demo.ok_response
                  [Demo.denver_ok; Demo.denver_great; Demo.denver_fine])
          = [response_body]
          ∧ headers (Demo.ok_response
                       [Demo.denver_ok; Demo.denver_great; Demo.denver_fine])
            = [("Content-Type", "application/json");
               ("Content-Length", str_of_nat (length response_body))])
     ∨ (status (Demo.ok_response
                  [Demo.denver_ok; Demo.denver_great; Demo.denver_fine])
        = "400 Bad Request"
        ∧ headers (Demo.ok_response
                     [Demo.denver_ok; Demo.denver_great; Demo.denver_fine])
          = [("Content-Type", "application/json")])).
Proof.
  apply (response_headers
           Demo.parse_qs Demo.to_datetime Demo.polarity_scores
           Demo.int_of_str Demo.utf8_decode Demo.json_string Demo.json_float
           (Demo.GET "location=Denver, Colorado") Demo.world Demo.store
           [ev_polarity_scores "ok"; ev_polarity_scores "Great!";
            ev_polarity_scores "fine"]
           (Demo.ok_response
              [Demo.denver_ok; Demo.denver_great; Demo.denver_fine])
           Demo.store).
  vm_compute. reflexivity.
Defined.

(** C8 on a query with a location only. *)
Lemma get_without_dates_no_parse_witness :
  ∃ tr,
    Demo.app (Demo.GET "location=Tucson, Arizona") Demo.world Demo.store
    = (tr, Responded (Demo.ok_response [Demo.tucson_awful]), Demo.store)
    ∧ status (Demo.ok_response [Demo.tucson_awful]) = "200 OK"
    ∧ ∀ s, ev_to_datetime s ∉ tr.
Proof.
  apply (get_without_dates_no_parse
           Demo.parse_qs Demo.to_datetime Demo.polarity_scores
           Demo.int_of_str Demo.utf8_decode Demo.json_string Demo.json_float
           (Demo.GET "location=Tucson, Arizona") Demo.world Demo.store
           [] (Some "Tucson, Arizona") None None).
  - reflexivity.
  - vm_compute. reflexivity.
  - reflexivity.
  - reflexivity.
Defined.

(** C9 on a range whose start is after its end: no review passes, and the
    answer is 200 with an empty array. *)
Lemma get_read_only_witness :
  (∀ tr o reviews',
     Demo.app (Demo.GET "start_date=2025-01-01&end_date=2020-01-01")
       Demo.world Demo.store = (tr, o, reviews') →
     reviews' = Demo.store)
  ∧ (∀ t location start_date end_date tf,
       Demo.query_fields (Demo.GET "start_date=2025-01-01&end_date=2020-01-01")
       = (t, inr (location, start_date, end_date)) →
       Demo.filter_reviews location start_date end_date Demo.store
       = (tf, inr []) →
       Demo.app (Demo.GET "start_date=2025-01-01&end_date=2020-01-01")
         Demo.world Demo.store
       = (tf,
          Responded
            {| status := "200 OK";
               headers := [("Content-Type", "application/json");
                           ("Content-Length", "2")];
               body := [utf8_encode "[]"] |},
          Demo.store)).
Proof.
  apply (get_read_only
           Demo.parse_qs Demo.to_datetime Demo.polarity_scores
           Demo.int_of_str Demo.utf8_decode Demo.json_string Demo.json_float
           (Demo.GET "start_date=2025-01-01&end_date=2020-01-01")
           Demo.world Demo.store).
  reflexivity.
Defined.

(** The range of that request does leave no review, and the answer is the
    one the theorem gives. *)
Lemma inverted_range_empty :
  Demo.filter_reviews None (Some "2025-01-01") (Some "2020-01-01") Demo.store
  = ([ev_to_datetime "2025-01-01"; ev_to_datetime "2020-01-01";
      ev_to_datetime "2023-01-01 00:00:00";
      ev_to_datetime "2023-06-15 12:30:00";
      ev_to_datetime "2022-02-02 08:00:00";
      ev_to_datetime "2024-01-01 00:00:00"], inr [])
  ∧ ∃ tr,
      Demo.app (Demo.GET "start_date=2025-01-01&end_date=2020-01-01")
        Demo.world Demo.store
      = (tr,
         Responded
           {| status := "200 OK";
              headers := [("Content-Type", "application/json");
                          ("Content-Length", "2")];
              body := [utf8_encode "[]"] |},
         Demo.store).
Proof.
  split; [reflexivity|]. eexists. vm_compute. reflexivity.
Qed.



(** * Further properties of the handler *)
Section Further.
Variable parse_qs : string → gmap string (list string).
Variable to_datetime : string → option pd_datetime.
Variable polarity_scores : string → Sentiment.
Variable int_of_str : string → option Z.
Variable utf8_decode : bytes → option string.
Variable json_string : string → string.
Variable json_float : Q → string.

Local Abbreviation query_fields := (query_fields parse_qs).
Local Abbreviation post_fields := (post_fields parse_qs int_of_str utf8_decode).
Local Abbreviation filter_reviews := (filter_reviews to_datetime).
Local Abbreviation filter_dates := (filter_dates to_datetime).
Local Abbreviation in_date_range := (in_date_range to_datetime).
Local Abbreviation parse_if_truthy := (parse_if_truthy to_datetime).
Local Abbreviation dumps_results := (dumps_results json_string json_float).
Local Abbreviation scored := (scored polarity_scores).
Local Abbreviation results_of := (results_of polarity_scores).
Local Abbreviation ok_response :=
  (ok_response polarity_scores json_string json_float).
Local Abbreviation created_response := (created_response json_string).
Local Abbreviation parses := (parses to_datetime).
Local Abbreviation timestamp_parses := (timestamp_parses to_datetime).
Local Abbreviation comparable := (comparable to_datetime).
Local Abbreviation bound := (bound to_datetime).
Local Abbreviation call :=
  (call parse_qs to_datetime polarity_scores int_of_str utf8_decode
        json_string json_float).
Local Abbreviation serve :=
  (serve parse_qs to_datetime polarity_scores int_of_str utf8_decode
         json_string json_float).
Local Abbreviation GET_cases :=
  (GET_cases parse_qs to_datetime polarity_scores int_of_str utf8_decode
             json_string json_float).
Local Abbreviation POST_cases :=
  (POST_cases parse_qs to_datetime polarity_scores int_of_str utf8_decode
              json_string json_float).
Local Abbreviation GET_filtered :=
  (GET_filtered parse_qs to_datetime polarity_scores int_of_str utf8_decode
                json_string json_float).

Lemma new_review_submitted world location review_body :
  location ≠ "" → review_body ≠ "" → In location VALID_LOCATIONS →
  submitted (new_review world location review_body).
Proof.
  intros Hl Hb Hv. repeat split; try done.
  - apply uuid_str_format.
  - apply strftime_format.
Qed.

(** One call leaves the reviews as they were, or answers 201 and appends
    one review that passed the checks. *)
Lemma call_step environ world reviews :
  (is_created (snd (fst (call environ world reviews))) = false
   ∧ snd (call environ world reviews) = reviews)
  ∨ (∃ review,
       is_created (snd (fst (call environ world reviews))) = true
       ∧ snd (call environ world reviews) = reviews ++ [review]
       ∧ submitted review).
Proof.
  destruct (String.eqb (REQUEST_METHOD environ) "GET") eqn:Hg.
  - apply String.eqb_eq in Hg. left.
    destruct (GET_cases environ world reviews Hg)
      as [(t & e & _ & ->)
         |(t & location & start_date & end_date & tf & Hq
           & [(filtered & Hf & ->)|[[Hf ->]|(e & _ & ->)]])]; done.
  - destruct (String.eqb (REQUEST_METHOD environ) "POST") eqn:Hp.
    + apply String.eqb_eq in Hp.
      destruct (POST_cases environ world reviews Hp)
        as [(t' & e & _ & ->)
           |(t' & location' & review_body' & _
             & [[_ ->]|[(_ & _ & _ & ->)
                       |(l & b & _ & _ & Hl & Hb & Hv & ->)]])];
        [by left..|].
      right. exists (new_review world l b).
      repeat split; try done.
      * apply uuid_str_format.
      * apply strftime_format.
    + left. unfold call. by rewrite Hg, Hp.
Qed.

Lemma serve_cons environ world requests reviews :
  serve ((environ, world) :: requests) reviews
  = (snd (fst (call environ world reviews))
       :: fst (serve requests (snd (call environ world reviews))),
     snd (serve requests (snd (call environ world reviews)))).
Proof. done. Qed.

(** X1. Over any sequence of requests the list of reviews only grows at
    its end: the list after the last request is the list before the first
    one followed by one review for each 201 response, and nothing else
    changed. *)
Theorem serve_append_only requests reviews :
  ∃ added,
    snd (serve requests reviews) = reviews ++ added
    ∧ length added
      = length (List.filter is_created (fst (serve requests reviews))).
Proof.
  revert reviews. induction requests as [|[environ world] requests IH];
    intros reviews.
  - exists []. by rewrite app_nil_r.
  - rewrite serve_cons. cbn [fst snd List.filter].
    destruct (call_step environ world reviews)
      as [[Hc ->]|(review & Hc & -> & _)]; rewrite Hc.
    + destruct (IH reviews) as (added & -> & Hn). by exists added.
    + destruct (IH (reviews ++ [review])) as (added & -> & Hn).
      exists (review :: added). rewrite <- app_assoc. simpl.
      by rewrite Hn.
Qed.

(** X2. Every review that a sequence of requests adds to the list has
    passed the checks of the POST branch: its Location is one of the
    valid locations, its ReviewBody is not empty, its ReviewId has the
    UUID shape and its Timestamp the shape [YYYY-MM-DD HH:MM:SS]. *)
Theorem serve_adds_submitted requests reviews :
  ∃ added,
    snd (serve requests reviews) = reviews ++ added
    ∧ Forall submitted added.
Proof.
  revert reviews. induction requests as [|[environ world] requests IH];
    intros reviews.
  - exists []. by rewrite app_nil_r.
  - rewrite serve_cons. cbn [fst snd List.filter].
    destruct (call_step environ world reviews)
      as [[Hc ->]|(review & Hc & -> & Hr)].
    + destruct (IH reviews) as (added & -> & Ha). by exists added.
    + destruct (IH (reviews ++ [review])) as (added & -> & Ha).
      exists (review :: added). rewrite <- app_assoc. simpl.
      split; [done|by constructor].
Qed.

Lemma post_fields_trace environ : fst (post_fields environ) = [].
Proof.
  unfold post_fields, content_length_of, first_value, bind, ret, raise.
  repeat case_match; simplify_eq; done.
Qed.

(** X3. Only a GET calls [pd.to_datetime] or the scorer: a request with
    any other method, a POST in particular, makes no external call
    however it ends, so a submitted ReviewBody is not scored when it is
    stored. *)
Theorem only_get_calls_out environ world reviews :
  REQUEST_METHOD environ ≠ "GET" →
  fst (fst (call environ world reviews)) = [].
Proof.
  intros Hg. apply String.eqb_neq in Hg.
  destruct (String.eqb (REQUEST_METHOD environ) "POST") eqn:Hp.
  - apply String.eqb_eq in Hp.
    pose proof (post_fields_trace environ) as Ht.
    destruct (POST_cases environ world reviews Hp)
      as [(t' & e & Hf & ->)
         |(t' & location' & review_body' & Hf
           & [[_ ->]|[(_ & _ & _ & ->)
                     |(l & b & _ & _ & _ & _ & _ & ->)]])];
      by rewrite Hf in Ht.
  - unfold call. by rewrite Hg, Hp.
Qed.

(** *** The body of a POST *)

(** X5. A POST whose [CONTENT_LENGTH] is not an integer is not answered
    with a 400: the [ValueError] of [int] leaves the handler, before the
    body is read; the list of reviews is untouched. *)
Theorem post_bad_content_length_raises environ world reviews s :
  REQUEST_METHOD environ = "POST" →
  CONTENT_LENGTH environ = Some s → int_of_str s = None →
  call environ world reviews = ([], Raised ValueError, reviews).
Proof.
  intros Hm Hc Hi. eapply POST_raise; [done|].
  unfold post_fields, content_length_of. by rewrite Hc, Hi.
Qed.

(** X6. A POST whose body, cut at the content length, is not UTF-8 is
    not answered with a 400 either: the [UnicodeDecodeError] leaves the
    handler and the list of reviews is untouched. *)
Theorem post_undecodable_body_raises environ world reviews n :
  REQUEST_METHOD environ = "POST" →
  content_length_of int_of_str environ = ([], inr n) →
  utf8_decode (read (wsgi_input environ) n) = None →
  call environ world reviews = ([], Raised UnicodeDecodeError, reviews).
Proof.
  intros Hm Hc Hd. eapply POST_raise; [done|].
  unfold post_fields. rewrite Hc, bind_inr. cbn [fst snd app].
  by rewrite Hd.
Qed.

(** X7. Without a [CONTENT_LENGTH] the length defaults to 0 and no byte
    of the body is read: as the empty form has no Location, the POST is
    answered with the 400 for missing fields, whatever the body holds. *)
Theorem post_without_content_length environ world reviews :
  REQUEST_METHOD environ = "POST" →
  CONTENT_LENGTH environ = None →
  utf8_decode [] = Some "" →
  parse_qs "" = ∅ →
  call environ world reviews
  = ([], Responded (bad_request "Location and ReviewBody are required"),
     reviews).
Proof.
  intros Hm Hc Hd Hp.
  eapply POST_required with (location := None) (review_body := None);
    [done| |by left].
  unfold post_fields, content_length_of. rewrite Hc, bind_ret_l.
  change (read (wsgi_input environ) 0) with (@nil Byte.byte).
  rewrite Hd, bind_ret_l, Hp. unfold first_value.
  by rewrite !lookup_empty.
Qed.

(** X8. The body of a POST is read up to the content length and no
    further: two requests with the same content length whose bodies
    agree on that many bytes are handled alike. *)
Theorem post_reads_content_length environ environ' world reviews n :
  REQUEST_METHOD environ = "POST" → REQUEST_METHOD environ' = "POST" →
  CONTENT_LENGTH environ' = CONTENT_LENGTH environ →
  content_length_of int_of_str environ = ([], inr n) → 0 <= n →
  take (Z.to_nat n) (wsgi_input environ')
  = take (Z.to_nat n) (wsgi_input environ) →
  call environ' world reviews = call environ world reviews.
Proof.
  intros Hm Hm' Hc Hn Hpos Hb.
  assert (content_length_of int_of_str environ' = ([], inr n)) as Hn'.
  { revert Hn. unfold content_length_of. by rewrite Hc. }
  assert (post_fields environ' = post_fields environ) as Hf.
  { unfold post_fields. rewrite Hn, Hn', !bind_inr. cbn [fst snd].
    unfold read. destruct (n <? 0) eqn:E; [apply Z.ltb_lt in E; lia|].
    by rewrite Hb. }
  rewrite !call_POST by done. unfold do_POST. by rewrite Hf.
Qed.

(** *** A GET that finds nothing *)

Lemma ok_response_nil : ok_response [] = empty_response.
Proof. done. Qed.

Lemma filter_dates_nil start_date end_date :
  query_value start_date → query_value end_date →
  parses start_date → parses end_date →
  filter_dates start_date end_date []
  = (parameter_parses start_date end_date, inr []).
Proof.
  intros Hqs Hqe Hs He. unfold filter_dates.
  rewrite (parse_if_truthy_ok _ _ Hqs Hs), bind_inr.
  rewrite (parse_if_truthy_ok _ _ Hqe He), bind_inr.
  simpl. unfold parameter_parses. by rewrite !app_nil_r.
Qed.

(** When no review is left after the location filter, the GET answers
    200 with the empty array once the dates supplied are parsed. *)
Lemma GET_no_candidate environ world reviews t location start_date end_date :
  REQUEST_METHOD environ = "GET" →
  query_fields environ = (t, inr (location, start_date, end_date)) →
  query_value start_date → query_value end_date →
  parses start_date → parses end_date →
  filter_location location reviews = [] →
  call environ world reviews
  = (parameter_parses start_date end_date, Responded empty_response, reviews).
Proof.
  intros Hm Hq Hqs Hqe Hs He Hl.
  assert (filter_reviews location start_date end_date reviews
          = (parameter_parses start_date end_date, inr [])) as Hf.
  { unfold filter_reviews. rewrite Hl.
    destruct (truthy start_date || truthy end_date) eqn:E.
    + by apply filter_dates_nil.
    + destruct (bound_unset _ _ Hqs Hqe E) as [-> ->]. done. }
  rewrite (GET_filtered _ _ _ _ _ _ _ _ _ Hm Hq Hf). by rewrite app_nil_r.
Qed.

(** X9. The location of a GET is not checked against the valid
    locations: a location that no stored review has (a misspelt one, or
    one outside the list) is answered with 200 and the empty array, not
    with an error; only the dates of the query are parsed and nothing is
    scored. *)
Theorem get_unknown_location_empty environ world reviews
    t location start_date end_date :
  REQUEST_METHOD environ = "GET" →
  query_fields environ = (t, inr (Some location, start_date, end_date)) →
  query_value start_date → query_value end_date →
  parses start_date → parses end_date →
  location ≠ "" →
  (∀ review, review ∈ reviews → Location review ≠ location) →
  call environ world reviews
  = (parameter_parses start_date end_date, Responded empty_response, reviews).
Proof.
  intros Hm Hq Hqs Hqe Hs He Hl Hno.
  eapply GET_no_candidate; try done.
  unfold filter_location. apply truthy_Some in Hl. rewrite Hl.
  induction reviews as [|r l IH]; [done|]. simpl.
  destruct (String.eqb (Location r) location) eqn:E.
  - apply String.eqb_eq in E. exfalso. eapply Hno; [by left|done].
  - apply IH. intros review Hr. apply Hno. by right.
Qed.

(** X10. On an empty list of reviews a GET whose dates parse is answered
    with 200 and the empty array, whatever the location. *)
Theorem get_empty_store environ world t location start_date end_date :
  REQUEST_METHOD environ = "GET" →
  query_fields environ = (t, inr (location, start_date, end_date)) →
  query_value start_date → query_value end_date →
  parses start_date → parses end_date →
  call environ world []
  = (parameter_parses start_date end_date, Responded empty_response, []).
Proof.
  intros Hm Hq Hqs Hqe Hs He. eapply GET_no_candidate; try done.
  unfold filter_location. by destruct (truthy location).
Qed.

Lemma within_inverted_nil a b l :
  (∀ ts, pd_ge ts a = Some true → pd_le ts b = Some true → False) →
  List.filter (within to_datetime (Some a) (Some b)) l = [].
Proof.
  intros Hno. induction l as [|r l IH]; [done|]. simpl.
  assert (within to_datetime (Some a) (Some b) r = false) as ->;
    [|exact IH].
  unfold within. destruct (to_datetime (Timestamp r)) as [ts|]; [|done].
  destruct (pd_ge ts a) as [[]|] eqn:E1; [|done..].
  destruct (pd_le ts b) as [[]|] eqn:E2; [|done..].
  by destruct (Hno ts).
Qed.

(** X11. A range whose start is after its end is not rejected: when the
    two dates are of one kind (both without a time zone, or both with
    one) and the Timestamps of the reviews that pass the location filter
    parse and are of that kind too, no review is within the range and the
    GET is answered with 200 and the empty array. *)
Theorem get_inverted_range_empty environ world reviews
    t location start_date end_date kind t0 t1 :
  REQUEST_METHOD environ = "GET" →
  query_fields environ
  = (t, inr (location, Some start_date, Some end_date)) →
  query_value location → start_date ≠ "" → end_date ≠ "" →
  kind = Naive ∨ kind = Aware →
  to_datetime start_date = Some (kind t0) →
  to_datetime end_date = Some (kind t1) →
  t1 < t0 →
  (∀ review, review ∈ reviews → location_matches location review →
             comparable (Some (kind t0)) review) →
  ∃ tr, call environ world reviews = (tr, Responded empty_response, reviews).
Proof.
  intros Hm Hq Hql Hs He Hk Ht0 Ht1 Hlt Hts.
  assert (query_value (Some start_date)) as Hqs by (by intros [= ->]).
  assert (query_value (Some end_date)) as Hqe by (by intros [= ->]).
  assert (parses (Some start_date)) as Hps
    by (intros ? [= <-]; by rewrite Ht0).
  assert (parses (Some end_date)) as Hpe
    by (intros ? [= <-]; by rewrite Ht1).
  destruct (filter_dates_ok to_datetime (Some start_date) (Some end_date)
              (filter_location location reviews) Hqs Hqe Hps Hpe)
    as [tr Hd].
  { intros _. apply Forall_forall. intros r Hr.
    apply filter_location_elem_of in Hr as [Hr Hm']; [|done].
    destruct (Hts r Hr Hm') as (ts & Hts' & Hmix).
    simpl. rewrite Ht0, Ht1.
    split; exists ts; (split; [done|]); intros b [= <-];
      specialize (Hmix _ eq_refl);
      destruct Hk as [-> | ->]; by destruct ts. }
  assert (filter_reviews location (Some start_date) (Some end_date) reviews
          = (parameter_parses (Some start_date) (Some end_date) ++ tr,
             inr [])) as Hf.
  { unfold filter_reviews.
    apply truthy_Some in Hs. rewrite Hs. cbn [orb]. rewrite Hd.
    f_equal. f_equal. simpl. rewrite Ht0, Ht1.
    apply within_inverted_nil. intros ts Hge Hle.
    destruct Hk as [-> | ->]; destruct ts; simplify_eq/=; lia. }
  eexists. rewrite (GET_filtered _ _ _ _ _ _ _ _ _ Hm Hq Hf).
  by rewrite app_nil_r.
Qed.

(** *** What a 200 response holds *)

Lemma GET_200 environ world reviews tr response reviews' :
  REQUEST_METHOD environ = "GET" →
  call environ world reviews = (tr, Responded response, reviews') →
  status response = "200 OK" →
  ∃ t location start_date end_date tf filtered,
    query_fields environ = (t, inr (location, start_date, end_date))
    ∧ filter_reviews location start_date end_date reviews
      = (tf, inr filtered)
    ∧ response = ok_response filtered
    ∧ tr = tf ++ scorer_calls filtered.
Proof.
  intros Hm Hc Hs.
  destruct (GET_cases environ world reviews Hm)
    as [(t & e & _ & Hc')
       |(t & location & start_date & end_date & tf & Hq
         & [(filtered & Hf & Hc')|[[Hf Hc']|(e & _ & Hc')]])];
    rewrite Hc' in Hc; simplify_eq; try done.
  by exists t, location, start_date, end_date, tf, filtered.
Qed.

Lemma StronglySorted_lookup {A} (R : A → A → Prop) l i j a b :
  StronglySorted R l → (i < j)%nat →
  l !! i = Some a → l !! j = Some b → R a b.
Proof.
  intros Hl. revert i j. induction Hl as [|y l Hl IH Hy]; intros i j Hij Ha Hb.
  - done.
  - destruct j as [|j]; [lia|]. destruct i as [|i]; simpl in *.
    + injection Ha as ->. rewrite Forall_forall in Hy.
      apply Hy. by eapply list_elem_of_lookup_2.
    + eapply (IH i j); [lia|done..].
Qed.

(** X12. The records of a 200 response stand one to one for the reviews
    that passed the filter: there are as many records as such reviews,
    and every record copies the ReviewId, ReviewBody, Location and
    Timestamp of a stored review unchanged and carries the scores the
    scorer gives that review's ReviewBody. *)
Theorem get_records_copy_reviews environ world reviews tr response reviews' :
  REQUEST_METHOD environ = "GET" →
  call environ world reviews = (tr, Responded response, reviews') →
  status response = "200 OK" →
  ∃ filtered,
    filtered `sublist_of` reviews
    ∧ body response = [utf8_encode (dumps_results (results_of filtered))]
    ∧ length (results_of filtered) = length filtered
    ∧ ∀ d, d ∈ results_of filtered →
           ∃ review,
             review ∈ filtered ∧ review ∈ reviews
             ∧ rd_ReviewId d = ReviewId review
             ∧ rd_ReviewBody d = ReviewBody review
             ∧ rd_Location d = Location review
             ∧ rd_Timestamp d = Timestamp review
             ∧ rd_sentiment d = polarity_scores (ReviewBody review).
Proof.
  intros Hm Hc Hs.
  destruct (GET_200 _ _ _ _ _ _ Hm Hc Hs)
    as (t & location & start_date & end_date & tf & filtered
        & Hq & Hf & -> & _).
  pose proof (filter_reviews_sublist _ _ _ _ _ _ _ Hf) as Hsub.
  pose proof (list_sort_perm compound_key true (map scored filtered))
    as Hperm.
  exists filtered. split; [done|]. split; [done|]. split.
  - unfold results_of. by rewrite Hperm, length_map.
  - intros d Hd. unfold results_of in Hd. rewrite Hperm in Hd.
    apply list_elem_of_fmap in Hd as (review & -> & Hr).
    exists review. repeat split; try done.
    by eapply elem_of_submseteq, sublist_submseteq.
Qed.

(** X13. In a 200 response no record has a higher compound score than
    any record before it, adjacent or not; the first record is the most
    positive review that passed the filter. *)
Theorem get_records_descending_throughout environ world reviews
    tr response reviews' :
  REQUEST_METHOD environ = "GET" →
  call environ world reviews = (tr, Responded response, reviews') →
  status response = "200 OK" →
  ∃ filtered,
    body response = [utf8_encode (dumps_results (results_of filtered))]
    ∧ ∀ i j a b, (i < j)%nat →
                 results_of filtered !! i = Some a →
                 results_of filtered !! j = Some b →
                 (compound (rd_sentiment b) <= compound (rd_sentiment a))%Q.
Proof.
  intros Hm Hc Hs.
  destruct (GET_200 _ _ _ _ _ _ Hm Hc Hs)
    as (t & location & start_date & end_date & tf & filtered
        & Hq & Hf & -> & _).
  exists filtered. split; [done|].
  intros i j a b Hij Ha Hb.
  exact (StronglySorted_lookup _ _ _ _ _ _
           (list_sort_descending compound_key (map scored filtered))
           Hij Ha Hb).
Qed.

(** *** A POST, then a GET *)

Lemma filter_location_new (location : string) reviews review :
  location ≠ "" → Location review = location →
  filter_location (Some location) (reviews ++ [review])
  = filter_location (Some location) reviews ++ [review].
Proof.
  intros Hl Hr. unfold filter_location.
  apply truthy_Some in Hl. rewrite Hl, List.filter_app. simpl.
  by rewrite Hr, String.eqb_refl.
Qed.

(** X14. A review accepted by a POST is served by the next GET for its
    location: with no dates in the query the GET answers 200, the new
    review is the last one to pass the filter, and its record, with the
    scores of its ReviewBody, is among the records of the response. *)
Theorem post_then_get post get world world' reviews
    t location review_body t' start_date end_date :
  REQUEST_METHOD post = "POST" →
  post_fields post = (t, inr (Some location, Some review_body)) →
  location ≠ "" → review_body ≠ "" → In location VALID_LOCATIONS →
  REQUEST_METHOD get = "GET" →
  query_fields get = (t', inr (Some location, start_date, end_date)) →
  truthy start_date = false → truthy end_date = false →
  ∃ filtered,
    filtered
    = filter_location (Some location) reviews
      ++ [new_review world location review_body]
    ∧ serve [(post, world); (get, world')] reviews
      = ([Responded (created_response
                       (new_review world location review_body));
          Responded (ok_response filtered)],
         reviews ++ [new_review world location review_body])
    ∧ scored (new_review world location review_body) ∈ results_of filtered.
Proof.
  intros Hm Hf Hl Hb Hv Hm' Hq Hs He.
  eexists. split; [reflexivity|]. split.
  - rewrite serve_cons.
    rewrite (POST_created _ _ _ _ _ _ _ _ _ _ _ _ _ Hm Hf Hl Hb)
      by (by apply val_in_In).
    cbn [fst snd]. rewrite serve_cons.
    erewrite GET_filtered; [reflexivity|done|exact Hq|].
    unfold filter_reviews. rewrite Hs, He. cbn [orb].
    by rewrite filter_location_new.
  - unfold results_of.
    rewrite (list_sort_perm compound_key true), map_app.
    apply elem_of_app. right. by left.
Qed.

(** *** The external calls of a GET *)

Lemma bind_trace {A B} (P : event → Prop) (m : M A) (k : A → M B) :
  Forall P (fst m) → (∀ a, Forall P (fst (k a))) →
  Forall P (fst (bind m k)).
Proof.
  intros Hm Hk. destruct m as [tm [e|a]]; [done|].
  rewrite bind_inr. simpl. apply Forall_app. split; [done|apply Hk].
Qed.

Lemma bind_trace_length {A B} (m : M A) (k : A → M B) (a b : nat) :
  (length (fst m) <= a)%nat → (∀ x, (length (fst (k x)) <= b)%nat) →
  (length (fst (bind m k)) <= a + b)%nat.
Proof.
  intros Hm Hk. destruct m as [tm [e|x]]; [simpl in *; lia|].
  rewrite bind_inr. simpl in *. rewrite length_app. specialize (Hk x). lia.
Qed.

Lemma comprehension_trace {A} (P : event → Prop) (cond : A → M bool) l :
  (∀ x, Forall P (fst (cond x))) → Forall P (fst (comprehension cond l)).
Proof.
  intros Hc. induction l as [|x l IH]; [constructor|].
  cbn [comprehension]. apply bind_trace; [apply Hc|]. intros c.
  apply bind_trace; [exact IH|]. intros rest. constructor.
Qed.

Lemma comprehension_trace_length {A} (cond : A → M bool) l (c : nat) :
  (∀ x, (length (fst (cond x)) <= c)%nat) →
  (length (fst (comprehension cond l)) <= c * length l)%nat.
Proof.
  intros Hc. induction l as [|x l IH]; [simpl; lia|].
  cbn [comprehension].
  pose proof (bind_trace_length (cond x)
                (fun c0 => let* rest := comprehension cond l in
                           ret (if c0 then x :: rest else rest))
                c (c * length l) (Hc x)) as H.
  etrans; [apply H|simpl; lia].
  intros c0.
  pose proof (bind_trace_length (comprehension cond l)
                (fun rest => ret (if c0 then x :: rest else rest))
                (c * length l) 0 IH) as H'.
  etrans; [apply H'|lia]. intros rest. simpl. lia.
Qed.

Lemma parse_if_truthy_trace d :
  Forall (fun e => is_parse e = true) (fst (parse_if_truthy d))
  ∧ (length (fst (parse_if_truthy d)) <= 1)%nat.
Proof.
  unfold parse_if_truthy, pd_to_datetime, bind, ret.
  destruct d as [s|]; [|split; [constructor|simpl; lia]].
  destruct (truthy (Some s)); [|split; [constructor|simpl; lia]].
  destruct (to_datetime s); simpl; split; repeat constructor.
Qed.

Lemma in_date_range_trace lower upper review :
  Forall (fun e => is_parse e = true)
         (fst (in_date_range lower upper review))
  ∧ (length (fst (in_date_range lower upper review)) <= 2)%nat.
Proof.
  unfold in_date_range, pd_to_datetime, timestamp_ge, timestamp_le,
    bind, ret, raise.
  destruct (to_datetime (Timestamp review)) as [ts|];
    destruct lower as [|s|t0], upper as [|s'|t1]; simpl;
    try destruct (pd_ge ts t0) as [[]|]; simpl;
    try destruct (pd_le ts t1) as [[]|]; simpl;
    split; repeat constructor.
Qed.

Lemma filter_reviews_trace location start_date end_date reviews :
  Forall (fun e => is_parse e = true)
         (fst (filter_reviews location start_date end_date reviews))
  ∧ (length (fst (filter_reviews location start_date end_date reviews))
     <= 2 + 2 * length (filter_location location reviews))%nat.
Proof.
  unfold filter_reviews.
  destruct (truthy start_date || truthy end_date);
    [|split; [constructor|simpl; lia]].
  unfold filter_dates. split.
  - apply bind_trace; [apply parse_if_truthy_trace|]. intros lower.
    apply bind_trace; [apply parse_if_truthy_trace|]. intros upper.
    apply comprehension_trace. intros r. apply in_date_range_trace.
  - change (2 + 2 * length (filter_location location reviews))%nat
      with (1 + (1 + 2 * length (filter_location location reviews)))%nat.
    apply bind_trace_length; [apply parse_if_truthy_trace|]. intros lower.
    apply bind_trace_length; [apply parse_if_truthy_trace|]. intros upper.
    apply comprehension_trace_length. intros r. apply in_date_range_trace.
Qed.

Lemma filter_reviews_sublist_location
    location start_date end_date reviews t filtered :
  filter_reviews location start_date end_date reviews = (t, inr filtered) →
  filtered `sublist_of` filter_location location reviews.
Proof.
  unfold filter_reviews.
  destruct (truthy start_date || truthy end_date).
  - unfold filter_dates. intros H.
    apply bind_inr_inv in H as (t1 & lower & t2 & _ & H & _).
    apply bind_inr_inv in H as (t3 & upper & t4 & _ & H & _).
    by apply comprehension_sublist in H.
  - by intros [= _ <-].
Qed.

(** The run of a GET once the values of the query are read. *)
Lemma GET_run environ world reviews t location start_date end_date :
  REQUEST_METHOD environ = "GET" →
  query_fields environ = (t, inr (location, start_date, end_date)) →
  call environ world reviews
  = match filter_reviews location start_date end_date reviews with
    | (tf, inr filtered) =>
        (tf ++ scorer_calls filtered, Responded (ok_response filtered),
         reviews)
    | (tf, inl ValueError) =>
        (tf, Responded (bad_request "Invalid date format"), reviews)
    | (tf, inl e) => (tf, Raised e, reviews)
    end.
Proof.
  intros Hm Hq.
  destruct (filter_reviews location start_date end_date reviews)
    as [tf [e|filtered]] eqn:Hf.
  - destruct (decide (e = ValueError)) as [->|He].
    + by eapply GET_ValueError.
    + rewrite (GET_raise _ _ _ _ _ _ _ _ _ _ _ _ _ _ _ _ Hm Hq Hf He).
      by destruct e.
  - by eapply GET_filtered.
Qed.

Lemma scorer_calls_scores l :
  List.filter is_parse (scorer_calls l) = []
  ∧ List.filter is_score (scorer_calls l) = scorer_calls l.
Proof.
  induction l as [|r l [IH1 IH2]]; [done|]. simpl.
  by rewrite IH1, IH2.
Qed.

Lemma parses_only t :
  Forall (fun e => is_parse e = true) t →
  List.filter is_parse t = t ∧ List.filter is_score t = [].
Proof.
  induction 1 as [|e t He Ht [IH1 IH2]]; [done|]. unfold is_score in *.
  simpl. by rewrite He, IH1, IH2.
Qed.

(** X15. A GET scores a review only after the whole filter has run:
    its external calls are calls of [pd.to_datetime] followed by calls
    of the scorer.  When it answers 200 the scorer is called exactly
    once for each review that passed the filter, in the order of the
    store; when it answers 400 or raises, the scorer is not called. *)
Theorem get_scores_after_filtering environ world reviews :
  REQUEST_METHOD environ = "GET" →
  ∃ parse_trace score_trace,
    fst (fst (call environ world reviews)) = parse_trace ++ score_trace
    ∧ Forall (fun e => is_parse e = true) parse_trace
    ∧ ((∃ filtered,
          snd (fst (call environ world reviews))
          = Responded (ok_response filtered)
          ∧ filtered `sublist_of` reviews
          ∧ score_trace = scorer_calls filtered)
       ∨ (score_trace = []
          ∧ (snd (fst (call environ world reviews))
             = Responded (bad_request "Invalid date format")
             ∨ ∃ e, snd (fst (call environ world reviews)) = Raised e))).
Proof.
  intros Hm.
  destruct (query_fields environ) as [t [e|[[location start_date] end_date]]]
    eqn:Hq.
  - exists [], []. rewrite (call_GET _ _ _ _ _ _ _ _ _ _ Hm).
    rewrite (do_GET_fields_raise _ _ _ _ _ _ _ _ _ Hq).
    pose proof (query_fields_trace parse_qs environ) as Ht.
    rewrite Hq in Ht. simpl in *. subst t.
    split; [done|]. split; [constructor|]. right. split; [done|].
    right. by exists e.
  - rewrite (GET_run _ _ _ _ _ _ _ Hm Hq).
    destruct (filter_reviews_trace location start_date end_date reviews)
      as [Hp _].
    destruct (filter_reviews location start_date end_date reviews)
      as [tf [e|filtered]] eqn:Hf; simpl in Hp.
    + exists tf, []. rewrite app_nil_r.
      destruct e; simpl; (split; [done|]); (split; [done|]);
        right; (split; [done|]); eauto.
    + exists tf, (scorer_calls filtered). simpl.
      split; [done|]. split; [done|]. left. exists filtered.
      split; [done|]. split; [|done].
      by eapply filter_reviews_sublist.
Qed.

(** X16. A GET makes at most two calls of [pd.to_datetime] for the
    query and two for each review that passes the location filter, and
    at most one call of the scorer for each such review. *)
Theorem get_call_bounds environ world reviews t location start_date end_date :
  REQUEST_METHOD environ = "GET" →
  query_fields environ = (t, inr (location, start_date, end_date)) →
  (length (List.filter is_parse (fst (fst (call environ world reviews))))
   <= 2 + 2 * length (filter_location location reviews))%nat
  ∧ (length (List.filter is_score (fst (fst (call environ world reviews))))
     <= length (filter_location location reviews))%nat.
Proof.
  intros Hm Hq. rewrite (GET_run _ _ _ _ _ _ _ Hm Hq).
  destruct (filter_reviews_trace location start_date end_date reviews)
    as [Hp Hn].
  destruct (filter_reviews location start_date end_date reviews)
    as [tf [e|filtered]] eqn:Hf; simpl in Hp, Hn.
  - destruct (parses_only _ Hp) as [H1 H2].
    destruct e; simpl; rewrite H1, H2; simpl; lia.
  - simpl. rewrite !List.filter_app, !length_app.
    destruct (parses_only _ Hp) as [-> ->].
    destruct (scorer_calls_scores filtered) as [-> ->].
    unfold scorer_calls. rewrite length_map. simpl.
    apply filter_reviews_sublist_location, sublist_length in Hf. lia.
Qed.

(** *** ReviewIds are not checked against the store *)

(** X18. The handler never compares a new ReviewId with the stored ones:
    two accepted submissions made with the same random bytes leave two
    reviews with the same ReviewId in the list. *)
Theorem same_random_bytes_same_review_id post post' world world' reviews
    t location review_body t' location' review_body' :
  REQUEST_METHOD post = "POST" →
  post_fields post = (t, inr (Some location, Some review_body)) →
  location ≠ "" → review_body ≠ "" → In location VALID_LOCATIONS →
  REQUEST_METHOD post' = "POST" →
  post_fields post' = (t', inr (Some location', Some review_body')) →
  location' ≠ "" → review_body' ≠ "" → In location' VALID_LOCATIONS →
  urandom16 world' = urandom16 world →
  ∃ review review',
    serve [(post, world); (post', world')] reviews
    = ([Responded (created_response review);
        Responded (created_response review')],
       reviews ++ [review; review'])
    ∧ ReviewId review' = ReviewId review.
Proof.
  intros Hm Hf Hl Hb Hv Hm' Hf' Hl' Hb' Hv' Hr.
  exists (new_review world location review_body),
         (new_review world' location' review_body').
  split.
  - rewrite serve_cons.
    rewrite (POST_created _ _ _ _ _ _ _ _ _ _ _ _ _ Hm Hf Hl Hb)
      by (by apply val_in_In).
    cbn [fst snd]. rewrite serve_cons.
    rewrite (POST_created _ _ _ _ _ _ _ _ _ _ _ _ _ Hm' Hf' Hl' Hb')
      by (by apply val_in_In).
    cbn [fst snd]. by rewrite <- app_assoc.
  - unfold new_review. simpl. by rewrite Hr.
Qed.

(** *** Reviews that are already in order *)

Lemma descending_tail d results :
  descending (d :: results) → descending results.
Proof. intros H i a b Ha Hb. by apply (H (S i) a b). Qed.

Lemma descending_StronglySorted results :
  descending results → StronglySorted (key_ge compound_key) results.
Proof.
  intros H. apply Sorted_StronglySorted.
  - intros a b c Hab Hbc. unfold key_ge in *. by eapply Qle_trans.
  - induction results as [|d results IH]; [constructor|].
    constructor; [by eapply IH, descending_tail|].
    destruct results as [|d' results]; constructor.
    by apply (H 0%nat d d').
Qed.

Lemma StronglySorted_flip_rev {A} (R : A → A → Prop) l :
  StronglySorted R l → StronglySorted (flip R) (rev l).
Proof.
  induction 1 as [|y l Hl IH Hy]; simpl; [constructor|].
  apply StronglySorted_snoc; [done|].
  apply Forall_forall. intros z Hz.
  apply list_elem_of_In in Hz. apply <- in_rev in Hz.
  apply list_elem_of_In in Hz.
  rewrite Forall_forall in Hy. by apply Hy.
Qed.

Lemma sort_ascending_sorted_id {A} (key : A → Q) l :
  StronglySorted (key_le key) l → sort_ascending key l = l.
Proof.
  induction 1 as [|x l Hl IH Hx]; [done|]. simpl. rewrite IH.
  destruct l as [|y l]; [done|]. simpl.
  inversion_clear Hx as [|?? Hxy _].
  assert (key_lt key y x = false) as ->; [|done].
  unfold key_lt. apply negb_false_iff, Qle_bool_iff. exact Hxy.
Qed.

(** X19. The sort leaves records that are already in descending order of
    compound score where they are: when the reviews that passed the
    filter come in that order, as they do when all have the same score,
    the response lists them in the order of the store. *)
Theorem sorted_survivors_keep_store_order filtered :
  descending (map scored filtered) →
  results_of filtered = map scored filtered.
Proof.
  intros H%descending_StronglySorted%StronglySorted_flip_rev.
  unfold results_of, list_sort.
  rewrite sort_ascending_sorted_id; [apply rev_involutive|].
  exact H.
Qed.

(** *** When a GET answers 400 *)

Lemma not_parses_bad d :
  query_value d → ¬ parses d →
  ∃ s, d = Some s ∧ s ≠ "" ∧ to_datetime s = None.
Proof.
  intros Hq Hn. destruct d as [s|]; [|by destruct Hn].
  exists s. split; [done|]. split; [by intros ->|].
  destruct (to_datetime s) as [z|] eqn:E; [|done].
  destruct Hn. intros ? [= <-]. by rewrite E.
Qed.

Lemma parses_dec d : parses d ∨ ¬ parses d.
Proof.
  destruct d as [s|]; [|by left].
  destruct (to_datetime s) as [z|] eqn:E.
  - left. intros ? [= <-]. by rewrite E.
  - right. intros H. destruct (H s eq_refl) as [z Hz]. congruence.
Qed.

Lemma Exists_first {A} (P : A → Prop) (l : list A) :
  (∀ x, P x ∨ ¬ P x) → Exists P l →
  ∃ before r after,
    l = before ++ r :: after ∧ Forall (fun x => ¬ P x) before ∧ P r.
Proof.
  intros Hdec. induction l as [|x l IH]; intros Hex.
  - by apply Exists_nil in Hex.
  - destruct (Hdec x) as [Hx|Hx].
    + by exists [], x, l.
    + apply Exists_cons in Hex as [Hex|Hex]; [done|].
      destruct (IH Hex) as (before & r & after & -> & Hb & Hr).
      exists (x :: before), r, after. split; [done|].
      split; [by constructor|done].
Qed.

(** X20. With query values as [parse_qs] gives them, and Timestamps
    that, where they parse, are not of the other kind (with or without a
    time zone) than a date of the query, a GET does not raise: it is
    answered with 400 and the bytes of [{"error": "Invalid date format"}]
    exactly when a date of the query does not parse or, the dates parsing
    and one being supplied, a review that passes the location filter has
    a Timestamp that does not parse; in every other case it is answered
    with 200. *)
Theorem get_400_exactly_when environ world reviews
    t location start_date end_date :
  REQUEST_METHOD environ = "GET" →
  query_fields environ = (t, inr (location, start_date, end_date)) →
  query_value start_date → query_value end_date →
  (∀ r ts b, r ∈ filter_location location reviews →
             to_datetime (Timestamp r) = Some ts →
             bound start_date = Some b ∨ bound end_date = Some b →
             mixed ts b = false) →
  ((¬ parses start_date ∨ ¬ parses end_date
    ∨ (truthy start_date || truthy end_date = true
       ∧ Exists (fun r => to_datetime (Timestamp r) = None)
                (filter_location location reviews)))
   ∧ ∃ tr,
       call environ world reviews
       = (tr,
          Responded
            {| status := "400 Bad Request";
               headers := [("Content-Type", "application/json")];
               body := [json_text "{'error': 'Invalid date format'}"] |},
          reviews))
  ∨ ((parses start_date ∧ parses end_date
      ∧ (truthy start_date || truthy end_date = true →
         Forall timestamp_parses (filter_location location reviews)))
     ∧ ∃ tr filtered,
         call environ world reviews
         = (tr, Responded (ok_response filtered), reviews)
         ∧ status (ok_response filtered) = "200 OK").
Proof.
  intros Hm Hq Hqs Hqe Hmix.
  assert (∀ tf, filter_reviews location start_date end_date reviews
                = (tf, inl ValueError) →
          ∃ tr, call environ world reviews
                = (tr,
                   Responded
                     {| status := "400 Bad Request";
                        headers := [("Content-Type", "application/json")];
                        body :=
                          [json_text "{'error': 'Invalid date format'}"] |},
                   reviews)) as H400.
  { intros tf Hf. exists tf.
    rewrite <- error_body_invalid_date, <- bad_request_bytes.
    by eapply GET_ValueError. }
  assert (∀ tf filtered,
            filter_reviews location start_date end_date reviews
            = (tf, inr filtered) →
            ∃ tr filtered',
              call environ world reviews
              = (tr, Responded (ok_response filtered'), reviews)
              ∧ status (ok_response filtered') = "200 OK") as H200.
  { intros tf filtered Hf. eexists _, filtered.
    split; [by eapply GET_filtered|done]. }
  assert (∀ s, (start_date = Some s ∨ end_date = Some s) → s ≠ "" →
               truthy start_date || truthy end_date = true) as Hactive.
  { intros s [-> | ->] Hs%truthy_Some; rewrite Hs;
      [done|by rewrite orb_true_r]. }
  assert (∀ r, r ∈ filter_location location reviews →
               is_Some (to_datetime (Timestamp r)) →
               comparable (bound start_date) r
               ∧ comparable (bound end_date) r) as Hcomparable.
  { intros r Hr [ts Hts].
    split; exists ts; (split; [done|]); intros b Hb;
      eapply Hmix; eauto. }
  assert (∀ r : Review, to_datetime (Timestamp r) = None
                        ∨ to_datetime (Timestamp r) ≠ None) as Hdec.
  { intros r. destruct (to_datetime (Timestamp r)); [by right|by left]. }
  destruct (parses_dec start_date) as [Hs|Hs].
  - destruct (parses_dec end_date) as [He|He].
    + destruct (truthy start_date || truthy end_date) eqn:Hd.
      * destruct (decide (Forall (fun r => is_Some (to_datetime (Timestamp r)))
                                 (filter_location location reviews)))
          as [Hall|Hsome].
        -- right. split; [done|].
           destruct (filter_dates_ok to_datetime start_date end_date
                       (filter_location location reviews) Hqs Hqe Hs He)
             as [tr Hf].
           { intros _. apply Forall_forall. intros r Hr.
             apply Hcomparable; [done|].
             rewrite Forall_forall in Hall. by apply Hall. }
           eapply H200. unfold filter_reviews. rewrite Hd. exact Hf.
        -- left. apply not_Forall_Exists in Hsome; [|apply _].
           assert (Exists (fun r => to_datetime (Timestamp r) = None)
                          (filter_location location reviews)) as Hex.
           { eapply Exists_impl; [exact Hsome|]. intros r Hr. simpl in Hr.
             by apply eq_None_not_Some. }
           split; [by right; right|].
           destruct (Exists_first _ _ Hdec Hex)
             as (before & r & after & Hl & Hb & Hr).
           destruct (filter_dates_unparseable to_datetime start_date
                       end_date before r after Hqs Hqe Hs He Hd)
             as [tr Hf]; [|done|].
           { apply Forall_forall. intros x Hx.
             apply Hcomparable.
             - rewrite Hl. apply elem_of_app. by left.
             - rewrite Forall_forall in Hb.
               by apply not_eq_None_Some, Hb. }
           eapply H400. unfold filter_reviews. rewrite Hd, Hl. exact Hf.
      * right. split; [done|].
        eapply H200. unfold filter_reviews. rewrite Hd. reflexivity.
    + left. split; [by right; left|].
      destruct (not_parses_bad _ Hqe He) as (s & -> & Hne & Hbad).
      destruct (filter_dates_bad_parameter to_datetime start_date (Some s)
                  (filter_location location reviews)) as (tr & Hf & _).
      { right. by exists s. }
      eapply H400. unfold filter_reviews.
      rewrite (Hactive s) by auto. exact Hf.
  - left. split; [by left|].
    destruct (not_parses_bad _ Hqs Hs) as (s & -> & Hne & Hbad).
    destruct (filter_dates_bad_parameter to_datetime (Some s) end_date
                (filter_location location reviews)) as (tr & Hf & _).
    { left. by exists s. }
    eapply H400. unfold filter_reviews.
    rewrite (Hactive s) by auto. exact Hf.
Qed.

(** *** Dates with and without a time zone *)

(** X22. A date of the query with a time zone (or without one) and a
    stored Timestamp of the other kind are not compared: [>=] raises
    [TypeError], which the [except ValueError] of the handler lets
    through.  The request gets no response, neither 200 nor 400, and the
    list of reviews is unchanged.  It is the first review that passes the
    location filter and is of the other kind than the start date that
    does this, the reviews before it being of the kind of the dates. *)
Theorem get_mixed_timezones_raises environ world before review after
    t location start_date end_date ts b :
  REQUEST_METHOD environ = "GET" →
  query_fields environ = (t, inr (location, start_date, end_date)) →
  query_value location → query_value start_date → query_value end_date →
  parses start_date → parses end_date →
  location_matches location review →
  to_datetime (Timestamp review) = Some ts →
  bound start_date = Some b → mixed ts b = true →
  (∀ r, r ∈ before → location_matches location r →
        comparable (bound start_date) r ∧ comparable (bound end_date) r) →
  ∃ tr,
    call environ world (before ++ review :: after)
    = (tr, Raised TypeError, before ++ review :: after).
Proof.
  intros Hm Hq Hql Hqs Hqe Hs He Hl Hts Hb Hmixed Hbefore.
  assert (truthy start_date || truthy end_date = true) as Ht.
  { destruct start_date as [s|]; [|done].
    assert (s ≠ "") as Hne by (by intros ->).
    apply truthy_Some in Hne. by rewrite Hne. }
  destruct (in_date_range_clash to_datetime (bound start_date)
              (bound end_date) review ts Hts) as [tr_r Hr].
  { left. by exists b. }
  destruct (filter_dates_stops to_datetime start_date end_date
              (filter_location location before) review
              (filter_location location after) tr_r TypeError
              Hqs Hqe Hs He) as [tr Hf]; [|done|].
  { apply Forall_forall. intros r Hr'.
    apply filter_location_elem_of in Hr' as [Hr' Hr'']; [|done].
    by apply Hbefore. }
  eexists. eapply GET_raise; [done..| |done].
  unfold filter_reviews.
  rewrite Ht, filter_location_app, filter_location_cons by done.
  exact Hf.
Qed.

(** X23. [pd.to_datetime] reads the text [NaT] without raising, and no
    Timestamp is at or after [NaT], nor at or before it: a date of the
    query that parses to [NaT] is not answered with 400 but with 200 and
    the empty array, when the Timestamps of the reviews that pass the
    location filter parse. *)
Theorem get_not_a_time_empty environ world reviews
    t location start_date end_date :
  REQUEST_METHOD environ = "GET" →
  query_fields environ = (t, inr (location, start_date, end_date)) →
  query_value location → query_value start_date → query_value end_date →
  parses end_date →
  bound start_date = Some NaT →
  (∀ review, review ∈ reviews → location_matches location review →
             comparable (bound end_date) review) →
  ∃ tr, call environ world reviews = (tr, Responded empty_response, reviews).
Proof.
  intros Hm Hq Hql Hqs Hqe He Hb Hts.
  assert (parses start_date) as Hs.
  { intros s ->. simpl in Hb. by rewrite Hb. }
  assert (truthy start_date || truthy end_date = true) as Ht.
  { destruct start_date as [s|]; [|done].
    assert (s ≠ "") as Hne by (by intros ->).
    apply truthy_Some in Hne. by rewrite Hne. }
  destruct (filter_dates_ok to_datetime start_date end_date
              (filter_location location reviews) Hqs Hqe Hs He)
    as [tr Hd].
  { intros _. apply Forall_forall. intros r Hr.
    apply filter_location_elem_of in Hr as [Hr Hm']; [|done].
    split; [|by apply Hts].
    destruct (Hts r Hr Hm') as (ts & Hts' & _).
    exists ts. split; [done|]. rewrite Hb. intros ? [= <-].
    by destruct ts. }
  assert (filter_reviews location start_date end_date reviews
          = (parameter_parses start_date end_date ++ tr, inr [])) as Hf.
  { unfold filter_reviews. rewrite Ht, Hd. f_equal. f_equal.
    rewrite Hb. clear Hd.
    induction (filter_location location reviews) as [|r l IH]; [done|].
    simpl. unfold within at 1.
    destruct (to_datetime (Timestamp r)) as [[]|]; simpl; exact IH. }
  eexists. rewrite (GET_filtered _ _ _ _ _ _ _ _ _ Hm Hq Hf).
  by rewrite app_nil_r.
Qed.

(** *** A POST does not look at the store *)

(** X21. The answer to a POST does not depend on the reviews that are
    stored: the same form at the same moment gets the same response and
    adds the same review whatever the list holds, so a submission that
    repeats a stored review is accepted again. *)
Theorem post_ignores_store environ world reviews reviews' :
  REQUEST_METHOD environ = "POST" →
  fst (call environ world reviews') = fst (call environ world reviews)
  ∧ ∃ added,
      snd (call environ world reviews) = reviews ++ added
      ∧ snd (call environ world reviews') = reviews' ++ added.
Proof.
  intros Hm.
  destruct (POST_cases environ world reviews Hm)
    as [(t & e & Hf & ->)
       |(t & location & review_body & Hf
         & [[Hv ->]|[(Hl & Hb & Hv & ->)
                    |(l & b & -> & -> & Hl & Hb & Hv & ->)]])].
  - erewrite POST_raise by done. split; [done|].
    exists []. by rewrite !app_nil_r.
  - erewrite POST_required by done. split; [done|].
    exists []. by rewrite !app_nil_r.
  - erewrite POST_invalid_location by done. split; [done|].
    exists []. by rewrite !app_nil_r.
  - erewrite POST_created; [|done|exact Hf|done|done|by apply val_in_In].
    split; [done|]. by eexists.
Qed.

End Further.

(** ** The version and variant of a ReviewId *)

Lemma nibble_bounds y : 0 <= Z.land y 15 < 16.
Proof.
  change 15 with (Z.ones 4). rewrite Z.land_ones by lia.
  apply Z.mod_pos_bound. lia.
Qed.

(** The version nibble is 4. *)
Lemma uuid4_version x : Z.land (Z.shiftr (uuid4 x) 76) 15 = 4.
Proof.
  apply Z.bits_inj'. intros n Hn.
  rewrite Z.land_spec, Z.shiftr_spec by lia.
  destruct (Z_lt_le_dec n 4) as [Hlt|Hge].
  - rewrite uuid4_testbit by lia.
    assert (n = 0 ∨ n = 1 ∨ n = 2 ∨ n = 3) as [-> | [-> | [-> | ->]]] by lia;
      cbn [Z.add Pos.add Pos.succ Pos.add_carry];
      match goal with |- context [Z.testbit x ?m] =>
        generalize (Z.testbit x m) end;
      intros [|]; reflexivity.
  - rewrite (Z.bits_above_log2 15 n), (Z.bits_above_log2 4 n),
      andb_false_r; try done; simpl; lia.
Qed.

(** The two high bits of the variant nibble are 1 and 0. *)
Lemma uuid4_variant x :
  ∃ v, Z.land (Z.shiftr (uuid4 x) 60) 15 = 8 + v ∧ 0 <= v < 4.
Proof.
  pose proof (nibble_bounds (Z.shiftr (uuid4 x) 60)) as Hb.
  assert (Z.testbit (Z.land (Z.shiftr (uuid4 x) 60) 15) 3 = true) as H3.
  { rewrite Z.land_spec, Z.shiftr_spec, uuid4_testbit by lia.
    cbn [Z.add Pos.add Pos.succ Pos.add_carry].
    match goal with |- context [Z.testbit x ?m] =>
      generalize (Z.testbit x m) end.
    intros [|]; reflexivity. }
  assert (Z.testbit (Z.land (Z.shiftr (uuid4 x) 60) 15) 2 = false) as H2.
  { rewrite Z.land_spec, Z.shiftr_spec, uuid4_testbit by lia.
    cbn [Z.add Pos.add Pos.succ Pos.add_carry].
    match goal with |- context [Z.testbit x ?m] =>
      generalize (Z.testbit x m) end.
    intros [|]; reflexivity. }
  exists (Z.land (Z.shiftr (uuid4 x) 60) 15 - 8). split; [lia|].
  revert H3 H2. generalize dependent (Z.land (Z.shiftr (uuid4 x) 60) 15).
  intros y Hy.
  assert (y = 0 ∨ y = 1 ∨ y = 2 ∨ y = 3 ∨ y = 4 ∨ y = 5 ∨ y = 6 ∨ y = 7
          ∨ y = 8 ∨ y = 9 ∨ y = 10 ∨ y = 11 ∨ y = 12 ∨ y = 13 ∨ y = 14
          ∨ y = 15) as Hcases by lia.
  repeat (destruct Hcases as [->|Hcases]; [simpl; intros; (done || lia)|]).
  subst y. simpl. intros. done || lia.
Qed.

(** X17. Every ReviewId the handler generates is a version 4 UUID of the
    RFC 4122 variant: its fifteenth character is [4] and its twentieth
    character is [8], [9], [a] or [b], whatever the random bytes are. *)
Theorem review_id_version_4 world location review_body :
  String.get 14 (ReviewId (new_review world location review_body))
  = Some "4"%char
  ∧ ∃ c, String.get 19 (ReviewId (new_review world location review_body))
         = Some c
         ∧ (c = "8" ∨ c = "9" ∨ c = "a" ∨ c = "b")%char.
Proof.
  unfold new_review. cbn [ReviewId].
  generalize (urandom16 world). intros x.
  pose proof (uuid4_version x) as Hv.
  destruct (uuid4_variant x) as (v & Hvar & Hvb).
  split.
  - unfold uuid_str. cbv -[Z.shiftr Z.land hex_char uuid4].
    rewrite !Z.shiftr_shiftr by lia.
    match goal with |- context [Z.shiftr (uuid4 x) ?k] =>
      let k' := eval vm_compute in k in change k with k' end.
    by rewrite Hv.
  - eexists. split.
    + unfold uuid_str. cbv -[Z.shiftr Z.land hex_char uuid4].
      rewrite !Z.shiftr_shiftr by lia.
      match goal with |- context [Z.shiftr (uuid4 x) ?k] =>
        let k' := eval vm_compute in k in change k with k' end.
      rewrite Hvar. reflexivity.
    + assert (v = 0 ∨ v = 1 ∨ v = 2 ∨ v = 3) as [-> | [-> | [-> | ->]]] by lia;
        simpl; tauto.
Qed.

(** * The further properties at concrete requests *)

(** X3 on a valid form. *)
Lemma only_get_calls_out_witness :
  fst (fst (Demo.app (Demo.POST "Location=Denver, Colorado&ReviewBody=Great!")
              Demo.world Demo.store)) = [].
Proof.
  apply (only_get_calls_out
           Demo.parse_qs Demo.to_datetime Demo.polarity_scores
           Demo.int_of_str Demo.utf8_decode Demo.json_string Demo.json_float
           (Demo.POST "Location=Denver, Colorado&ReviewBody=Great!")
           Demo.world Demo.store).
  discriminate.
Defined.

(** X5 on a content length that is not a number. *)
Lemma post_bad_content_length_raises_witness :
  Demo.int_of_str "abc" = None
  ∧ Demo.app (Demo.POST_with_length (Some "abc")
                "Location=Denver, Colorado&ReviewBody=Great!")
      Demo.world Demo.store
    = ([], Raised ValueError, Demo.store).
Proof.
  split; [reflexivity|].
  apply (post_bad_content_length_raises
           Demo.parse_qs Demo.to_datetime Demo.polarity_scores
           Demo.int_of_str Demo.utf8_decode Demo.json_string Demo.json_float
           (Demo.POST_with_length (Some "abc")
              "Location=Denver, Colorado&ReviewBody=Great!")
           Demo.world Demo.store "abc"); reflexivity.
Defined.

(** X6 on a body of one byte that no UTF-8 text contains, with the
    decoder that accepts ASCII only. *)
Lemma post_undecodable_body_raises_witness :
  call Demo.parse_qs Demo.to_datetime Demo.polarity_scores Demo.int_of_str
       Demo.ascii_decode Demo.json_string Demo.json_float
       {| REQUEST_METHOD := "POST"; QUERY_STRING := None;
          CONTENT_LENGTH := Some "1"; wsgi_input := [Byte.xff] |}
       Demo.world Demo.store
  = ([], Raised UnicodeDecodeError, Demo.store).
Proof.
  apply (post_undecodable_body_raises
           Demo.parse_qs Demo.to_datetime Demo.polarity_scores
           Demo.int_of_str Demo.ascii_decode Demo.json_string Demo.json_float
           {| REQUEST_METHOD := "POST"; QUERY_STRING := None;
              CONTENT_LENGTH := Some "1"; wsgi_input := [Byte.xff] |}
           Demo.world Demo.store 1); reflexivity.
Defined.

(** X7 on a valid form sent without its length. *)
Lemma post_without_content_length_witness :
  Demo.app (Demo.POST_with_length None
              "Location=Denver, Colorado&ReviewBody=Great!")
    Demo.world Demo.store
  = ([], Responded (bad_request "Location and ReviewBody are required"),
     Demo.store).
Proof.
  apply (post_without_content_length
           Demo.parse_qs Demo.to_datetime Demo.polarity_scores
           Demo.int_of_str Demo.utf8_decode Demo.json_string Demo.json_float
           (Demo.POST_with_length None
              "Location=Denver, Colorado&ReviewBody=Great!")
           Demo.world Demo.store); reflexivity.
Defined.

(** X8 on a form followed by bytes beyond its length. *)
Lemma post_reads_content_length_witness :
  Demo.app (Demo.POST_with_length (Some "43")
              "Location=Denver, Colorado&ReviewBody=Great!&ReviewBody=more")
    Demo.world Demo.store
  = Demo.app (Demo.POST_with_length (Some "43")
                "Location=Denver, Colorado&ReviewBody=Great!")
      Demo.world Demo.store.
Proof.
  apply (post_reads_content_length
           Demo.parse_qs Demo.to_datetime Demo.polarity_scores
           Demo.int_of_str Demo.utf8_decode Demo.json_string Demo.json_float
           (Demo.POST_with_length (Some "43")
              "Location=Denver, Colorado&ReviewBody=Great!")
           (Demo.POST_with_length (Some "43")
              "Location=Denver, Colorado&ReviewBody=Great!&ReviewBody=more")
           Demo.world Demo.store 43); try reflexivity.
  lia.
Defined.

(** X9 on a location that is not in the store (nor in the list of valid
    locations). *)
Lemma get_unknown_location_empty_witness :
  Demo.app (Demo.GET "location=Atlantis") Demo.world Demo.store
  = (parameter_parses None None, Responded empty_response, Demo.store).
Proof.
  apply (get_unknown_location_empty
           Demo.parse_qs Demo.to_datetime Demo.polarity_scores
           Demo.int_of_str Demo.utf8_decode Demo.json_string Demo.json_float
           (Demo.GET "location=Atlantis") Demo.world Demo.store
           [] "Atlantis" None None); try reflexivity; try discriminate.
  intros review Hr. unfold Demo.store in Hr.
  repeat (apply elem_of_cons in Hr as [->|Hr]; [discriminate|]).
  by apply elem_of_nil in Hr.
Defined.

(** X10 on the empty store with a start date. *)
Lemma get_empty_store_witness :
  Demo.app (Demo.GET "start_date=2023-01-01") Demo.world []
  = (parameter_parses (Some "2023-01-01") None, Responded empty_response, []).
Proof.
  apply (get_empty_store
           Demo.parse_qs Demo.to_datetime Demo.polarity_scores
           Demo.int_of_str Demo.utf8_decode Demo.json_string Demo.json_float
           (Demo.GET "start_date=2023-01-01") Demo.world
           [] None (Some "2023-01-01") None);
    try reflexivity; try discriminate.
  intros s [= <-]. by eexists.
Defined.

(** X11 on a range that ends five years before it starts. *)
Lemma get_inverted_range_empty_witness :
  ∃ tr,
    Demo.app (Demo.GET "start_date=2025-01-01&end_date=2020-01-01")
      Demo.world Demo.store
    = (tr, Responded empty_response, Demo.store).
Proof.
  apply (get_inverted_range_empty
           Demo.parse_qs Demo.to_datetime Demo.polarity_scores
           Demo.int_of_str Demo.utf8_decode Demo.json_string Demo.json_float
           (Demo.GET "start_date=2025-01-01&end_date=2020-01-01")
           Demo.world Demo.store [] None "2025-01-01" "2020-01-01"
           Naive 20250101000000 20200101000000);
    try reflexivity; try discriminate.
  - by left.
  - intros review Hr _.
    exact (demo_store_comparable "2025-01-01" 20250101000000 review
             eq_refl Hr).
Defined.

(** X12 on the three Denver reviews. *)
Lemma get_records_copy_reviews_witness :
  ∃ filtered,
    filtered `sublist_of` Demo.store
    ∧ body (Demo.ok_response
              [Demo.denver_ok; Demo.denver_great; Demo.denver_fine])
      = [utf8_encode (Demo.dumps_results (Demo.results_of filtered))]
    ∧ length (Demo.results_of filtered) = length filtered
    ∧ ∀ d, d ∈ Demo.results_of filtered →
           ∃ review,
             review ∈ filtered ∧ review ∈ Demo.store
             ∧ rd_ReviewId d = ReviewId review
             ∧ rd_ReviewBody d = ReviewBody review
             ∧ rd_Location d = Location review
             ∧ rd_Timestamp d = Timestamp review
             ∧ rd_sentiment d = Demo.polarity_scores (ReviewBody review).
Proof.
  apply (get_records_copy_reviews
           Demo.parse_qs Demo.to_datetime Demo.polarity_scores
           Demo.int_of_str Demo.utf8_decode Demo.json_string Demo.json_float
           (Demo.GET "location=Denver, Colorado") Demo.world Demo.store
           [ev_polarity_scores "ok"; ev_polarity_scores "Great!";
            ev_polarity_scores "fine"]
           (Demo.ok_response
              [Demo.denver_ok; Demo.denver_great; Demo.denver_fine])
           Demo.store).
  - reflexivity.
  - vm_compute. reflexivity.
  - reflexivity.
Defined.

(** X13 on the whole store. *)
Lemma get_records_descending_throughout_witness :
  ∃ filtered,
    body (Demo.ok_response Demo.store)
    = [utf8_encode (Demo.dumps_results (Demo.results_of filtered))]
    ∧ ∀ i j a b, (i < j)%nat →
                 Demo.results_of filtered !! i = Some a →
                 Demo.results_of filtered !! j = Some b →
                 (compound (rd_sentiment b) <= compound (rd_sentiment a))%Q.
Proof.
  apply (get_records_descending_throughout
           Demo.parse_qs Demo.to_datetime Demo.polarity_scores
           Demo.int_of_str Demo.utf8_decode Demo.json_string Demo.json_float
           (Demo.GET "") Demo.world Demo.store
           [ev_polarity_scores "ok"; ev_polarity_scores "Great!";
            ev_polarity_scores "Awful"; ev_polarity_scores "fine"]
           (Demo.ok_response Demo.store) Demo.store).
  - reflexivity.
  - vm_compute. reflexivity.
  - reflexivity.
Defined.

(** X14: a review for Tucson is submitted and the Tucson reviews are
    queried. *)
Lemma post_then_get_witness :
  ∃ filtered,
    filtered
    = filter_location (Some "Tucson, Arizona") Demo.store
      ++ [new_review Demo.world "Tucson, Arizona" "Great!"]
    ∧ Demo.serve
        [(Demo.POST "Location=Tucson, Arizona&ReviewBody=Great!", Demo.world);
         (Demo.GET "location=Tucson, Arizona", Demo.later)]
        Demo.store
      = ([Responded (Demo.created_response
                       (new_review Demo.world "Tucson, Arizona" "Great!"));
          Responded (Demo.ok_response filtered)],
         Demo.store ++ [new_review Demo.world "Tucson, Arizona" "Great!"])
    ∧ Demo.scored (new_review Demo.world "Tucson, Arizona" "Great!")
      ∈ Demo.results_of filtered.
Proof.
  apply (post_then_get
           Demo.parse_qs Demo.to_datetime Demo.polarity_scores
           Demo.int_of_str Demo.utf8_decode Demo.json_string Demo.json_float
           (Demo.POST "Location=Tucson, Arizona&ReviewBody=Great!")
           (Demo.GET "location=Tucson, Arizona") Demo.world Demo.later
           Demo.store [] "Tucson, Arizona" "Great!" [] None None);
    try reflexivity; try discriminate.
  apply (val_in_In "Tucson, Arizona" VALID_LOCATIONS). reflexivity.
Defined.

(** X15 on a GET with a date filter. *)
Lemma get_scores_after_filtering_witness :
  ∃ parse_trace score_trace,
    fst (fst (Demo.app (Demo.GET "start_date=2023-06-01") Demo.world
                Demo.store))
    = parse_trace ++ score_trace
    ∧ Forall (fun e => is_parse e = true) parse_trace
    ∧ ((∃ filtered,
          snd (fst (Demo.app (Demo.GET "start_date=2023-06-01") Demo.world
                      Demo.store))
          = Responded (Demo.ok_response filtered)
          ∧ filtered `sublist_of` Demo.store
          ∧ score_trace = scorer_calls filtered)
       ∨ (score_trace = []
          ∧ (snd (fst (Demo.app (Demo.GET "start_date=2023-06-01")
                         Demo.world Demo.store))
             = Responded (bad_request "Invalid date format")
             ∨ ∃ e, snd (fst (Demo.app (Demo.GET "start_date=2023-06-01")
                                Demo.world Demo.store)) = Raised e))).
Proof.
  apply (get_scores_after_filtering
           Demo.parse_qs Demo.to_datetime Demo.polarity_scores
           Demo.int_of_str Demo.utf8_decode Demo.json_string Demo.json_float
           (Demo.GET "start_date=2023-06-01") Demo.world Demo.store).
  reflexivity.
Defined.

(** The calls of that GET: one parse for the query, one for each stored
    Timestamp, then one score for each of the two reviews in range. *)
Lemma get_scores_after_filtering_run :
  fst (fst (Demo.app (Demo.GET "start_date=2023-06-01") Demo.world
              Demo.store))
  = [ev_to_datetime "2023-06-01"; ev_to_datetime "2023-01-01 00:00:00";
     ev_to_datetime "2023-06-15 12:30:00";
     ev_to_datetime "2022-02-02 08:00:00";
     ev_to_datetime "2024-01-01 00:00:00";
     ev_polarity_scores "Great!"; ev_polarity_scores "fine"].
Proof. vm_compute. reflexivity. Qed.

(** X16 on a GET with a location and both dates: of the three Denver
    reviews, the two of 2023 pass the start test and are parsed twice. *)
Lemma get_call_bounds_witness :
  (length (List.filter is_parse
             (fst (fst (Demo.app
                          (Demo.GET "location=Denver, Colorado&start_date=2023-01-01&end_date=2023-12-31")
                          Demo.world Demo.store))))
   <= 2 + 2 * length (filter_location (Some "Denver, Colorado") Demo.store))%nat
  ∧ (length (List.filter is_score
               (fst (fst (Demo.app
                            (Demo.GET "location=Denver, Colorado&start_date=2023-01-01&end_date=2023-12-31")
                            Demo.world Demo.store))))
     <= length (filter_location (Some "Denver, Colorado") Demo.store))%nat.
Proof.
  apply (get_call_bounds
           Demo.parse_qs Demo.to_datetime Demo.polarity_scores
           Demo.int_of_str Demo.utf8_decode Demo.json_string Demo.json_float
           (Demo.GET "location=Denver, Colorado&start_date=2023-01-01&end_date=2023-12-31")
           Demo.world Demo.store
           [] (Some "Denver, Colorado") (Some "2023-01-01")
           (Some "2023-12-31")).
  - reflexivity.
  - vm_compute. reflexivity.
Defined.

(** X18: the same form twice, the random bytes being the same. *)
Lemma same_random_bytes_same_review_id_witness :
  ∃ review review',
    Demo.serve
      [(Demo.POST "Location=Denver, Colorado&ReviewBody=Great!", Demo.world);
       (Demo.POST "Location=Tucson, Arizona&ReviewBody=Awful", Demo.world)]
      Demo.store
    = ([Responded (Demo.created_response review);
        Responded (Demo.created_response review')],
       Demo.store ++ [review; review'])
    ∧ ReviewId review' = ReviewId review.
Proof.
  apply (same_random_bytes_same_review_id
           Demo.parse_qs Demo.to_datetime Demo.polarity_scores
           Demo.int_of_str Demo.utf8_decode Demo.json_string Demo.json_float
           (Demo.POST "Location=Denver, Colorado&ReviewBody=Great!")
           (Demo.POST "Location=Tucson, Arizona&ReviewBody=Awful")
           Demo.world Demo.world Demo.store
           [] "Denver, Colorado" "Great!" [] "Tucson, Arizona" "Awful");
    try reflexivity; try discriminate.
  - apply (val_in_In "Denver, Colorado" VALID_LOCATIONS). reflexivity.
  - apply (val_in_In "Tucson, Arizona" VALID_LOCATIONS). reflexivity.
Defined.

(** X19 on two reviews of the same score. *)
Lemma sorted_survivors_keep_store_order_witness :
  Demo.results_of [Demo.denver_ok; Demo.denver_fine]
  = map Demo.scored [Demo.denver_ok; Demo.denver_fine].
Proof.
  apply (sorted_survivors_keep_store_order Demo.polarity_scores
           [Demo.denver_ok; Demo.denver_fine]).
  intros i a b Ha Hb.
  destruct i as [|[|i]]; simpl in Ha, Hb; simplify_eq.
  discriminate.
Defined.

(** X20 on a store whose last review has no date, with an end date in
    the query: the second case does not hold and the answer is 400. *)
Lemma get_400_exactly_when_witness :
  ((¬ parses Demo.to_datetime None
    ∨ ¬ parses Demo.to_datetime (Some "2023-01-01")
    ∨ (truthy None || truthy (Some "2023-01-01") = true
       ∧ Exists (fun r => Demo.to_datetime (Timestamp r) = None)
                (filter_location None (Demo.store ++ [Demo.denver_undated]))))
   ∧ ∃ tr,
       Demo.app (Demo.GET "end_date=2023-01-01") Demo.world
         (Demo.store ++ [Demo.denver_undated])
       = (tr,
          Responded
            {| status := "400 Bad Request";
               headers := [("Content-Type", "application/json")];
               body := [json_text "{'error': 'Invalid date format'}"] |},
          Demo.store ++ [Demo.denver_undated]))
  ∨ ((parses Demo.to_datetime None
      ∧ parses Demo.to_datetime (Some "2023-01-01")
      ∧ (truthy None || truthy (Some "2023-01-01") = true →
         Forall (timestamp_parses Demo.to_datetime)
                (filter_location None (Demo.store ++ [Demo.denver_undated]))))
     ∧ ∃ tr filtered,
         Demo.app (Demo.GET "end_date=2023-01-01") Demo.world
           (Demo.store ++ [Demo.denver_undated])
         = (tr, Responded (Demo.ok_response filtered),
            Demo.store ++ [Demo.denver_undated])
         ∧ status (Demo.ok_response filtered) = "200 OK").
Proof.
  apply (get_400_exactly_when
           Demo.parse_qs Demo.to_datetime Demo.polarity_scores
           Demo.int_of_str Demo.utf8_decode Demo.json_string Demo.json_float
           (Demo.GET "end_date=2023-01-01") Demo.world
           (Demo.store ++ [Demo.denver_undated])
           [] None None (Some "2023-01-01"));
    try reflexivity; try discriminate.
  intros r ts b Hr Hts [Hb|Hb]; [discriminate Hb|].
  vm_compute in Hb. injection Hb as <-.
  change (r ∈ [Demo.denver_ok; Demo.denver_great; Demo.tucson_awful;
               Demo.denver_fine; Demo.denver_undated]) in Hr.
  repeat (apply elem_of_cons in Hr as [-> | Hr];
          [vm_compute in Hts; by simplify_eq|]).
  by apply elem_of_nil in Hr.
Defined.

(** X22 on a start date in UTC: the first Timestamp of the store has no
    time zone, and the request ends in a [TypeError] after two calls of
    [pd.to_datetime]. *)
Lemma get_mixed_timezones_raises_witness :
  Demo.app (Demo.GET "start_date=2023-01-01T00:00:00Z") Demo.world Demo.store
  = ([ev_to_datetime "2023-01-01T00:00:00Z";
      ev_to_datetime "2023-01-01 00:00:00"],
     Raised TypeError, Demo.store)
  ∧ ∃ tr,
      Demo.app (Demo.GET "start_date=2023-01-01T00:00:00Z") Demo.world
        ([] ++ Demo.denver_ok
            :: [Demo.denver_great; Demo.tucson_awful; Demo.denver_fine])
      = (tr, Raised TypeError,
         [] ++ Demo.denver_ok
            :: [Demo.denver_great; Demo.tucson_awful; Demo.denver_fine]).
Proof.
  split; [vm_compute; reflexivity|].
  apply (get_mixed_timezones_raises
           Demo.parse_qs Demo.to_datetime Demo.polarity_scores
           Demo.int_of_str Demo.utf8_decode Demo.json_string Demo.json_float
           (Demo.GET "start_date=2023-01-01T00:00:00Z") Demo.world
           [] Demo.denver_ok
           [Demo.denver_great; Demo.tucson_awful; Demo.denver_fine]
           [] None (Some "2023-01-01T00:00:00Z") None
           (Naive 20230101000000) (Aware 20230101000000));
    try reflexivity; try discriminate.
  - intros s [= <-]. by eexists.
  - intros r Hr. by apply elem_of_nil in Hr.
Defined.

(** X23 on the start date [NaT]. *)
Lemma get_not_a_time_empty_witness :
  Demo.to_datetime "NaT" = Some NaT
  ∧ ∃ tr,
      Demo.app (Demo.GET "start_date=NaT") Demo.world Demo.store
      = (tr, Responded empty_response, Demo.store).
Proof.
  split; [reflexivity|].
  apply (get_not_a_time_empty
           Demo.parse_qs Demo.to_datetime Demo.polarity_scores
           Demo.int_of_str Demo.utf8_decode Demo.json_string Demo.json_float
           (Demo.GET "start_date=NaT") Demo.world Demo.store
           [] None (Some "NaT") None);
    try reflexivity; try discriminate.
  intros review Hr _. by apply demo_store_comparable_unset.
Defined.

(** X21 on a valid form, with the store and with the empty list. *)
Lemma post_ignores_store_witness :
  fst (Demo.app (Demo.POST "Location=Denver, Colorado&ReviewBody=Great!")
         Demo.world [])
  = fst (Demo.app (Demo.POST "Location=Denver, Colorado&ReviewBody=Great!")
           Demo.world Demo.store)
  ∧ ∃ added,
      snd (Demo.app (Demo.POST "Location=Denver, Colorado&ReviewBody=Great!")
             Demo.world Demo.store) = Demo.store ++ added
      ∧ snd (Demo.app (Demo.POST "Location=Denver, Colorado&ReviewBody=Great!")
               Demo.world []) = [] ++ added.
Proof.
  apply (post_ignores_store
           Demo.parse_qs Demo.to_datetime Demo.polarity_scores
           Demo.int_of_str Demo.utf8_decode Demo.json_string Demo.json_float
           (Demo.POST "Location=Denver, Colorado&ReviewBody=Great!")
           Demo.world Demo.store []).
  reflexivity.
Defined.
